(** * pixi-effects-camera: the effect registry and the five stock effects

    A shallow embedding of [Camera], [CameraEffect] and the effects
    [ShakeEffect], [PanEffect], [ZoomEffect], [RotateEffect] and
    [FadeEffect], with the lifecycle and interpolation properties proved
    about them.

    Conventions of the embedding:
    - a JavaScript [number] is an exact rational extended with
      [Infinity], [-Infinity] and [NaN]; rounding of binary64 and the sign
      of zero are not modelled;
    - objects live in stores indexed by references, so that two entries of
      the camera's array naming one effect, or two effects driving one
      container, share their state; a reference always names an object
      (the stores are total);
    - [performance.now()] and [Math.random()] are oracles: the k-th call
      returns the k-th reading;
    - every call the camera makes on an effect ([update], [endCondition],
      [onEnd]) is recorded in a call log. *)

From Stdlib Require Import QArith Qabs Lqa Lia List Bool Arith String.
Import ListNotations.

Local Open Scope Q_scope.

(** ** Numbers *)

Inductive number : Type :=
| Fin (q : Q)
| PInf
| NInf
| NaN.

Declare Scope number_scope.
Delimit Scope number_scope with number.
Bind Scope number_scope with number.

Definition Infinity : number := PInf.

Definition isFinite (a : number) : bool :=
  match a with Fin _ => true | _ => false end.

(** sign of a rational: [Gt] positive, [Eq] zero, [Lt] negative *)
Definition Qsign (q : Q) : comparison := q ?= 0.

Definition inf_of_sign (c : comparison) : number :=
  match c with Gt => PInf | Eq => NaN | Lt => NInf end.

Definition flip_sign (c : comparison) : comparison := CompOpp c.

Definition num_neg (a : number) : number :=
  match a with
  | Fin q => Fin (- q)
  | PInf => NInf
  | NInf => PInf
  | NaN => NaN
  end.

Definition num_add (a b : number) : number :=
  match a, b with
  | NaN, _ | _, NaN => NaN
  | Fin p, Fin q => Fin (p + q)
  | PInf, NInf | NInf, PInf => NaN
  | PInf, _ | _, PInf => PInf
  | NInf, _ | _, NInf => NInf
  end.

Definition num_sub (a b : number) : number := num_add a (num_neg b).

Definition num_mul (a b : number) : number :=
  match a, b with
  | NaN, _ | _, NaN => NaN
  | Fin p, Fin q => Fin (p * q)
  | PInf, Fin q | Fin q, PInf => inf_of_sign (Qsign q)
  | NInf, Fin q | Fin q, NInf => inf_of_sign (flip_sign (Qsign q))
  | PInf, PInf | NInf, NInf => PInf
  | PInf, NInf | NInf, PInf => NInf
  end.

(** Division as in IEEE 754 with a single, positive zero: a finite
    non-zero number over zero is an infinity of its sign, [0 / 0] is
    [NaN], a finite number over an infinity is zero. *)
Definition num_div (a b : number) : number :=
  match a, b with
  | NaN, _ | _, NaN => NaN
  | Fin p, Fin q =>
      if Qeq_bool q 0 then inf_of_sign (Qsign p) else Fin (p / q)
  | Fin _, PInf | Fin _, NInf => Fin 0
  | PInf, Fin q =>
      if Qeq_bool q 0 then PInf else inf_of_sign (Qsign q)
  | NInf, Fin q =>
      if Qeq_bool q 0 then NInf else inf_of_sign (flip_sign (Qsign q))
  | PInf, PInf | PInf, NInf | NInf, PInf | NInf, NInf => NaN
  end.

Definition Qlt_bool (p q : Q) : bool := negb (Qle_bool q p).

(** [a < b]; false as soon as one side is [NaN] *)
Definition num_lt (a b : number) : bool :=
  match a, b with
  | NaN, _ | _, NaN => false
  | Fin p, Fin q => Qlt_bool p q
  | NInf, NInf | PInf, _ | _, NInf => false
  | NInf, _ | _, PInf => true
  end.

(** [a <= b]; false as soon as one side is [NaN] *)
Definition num_le (a b : number) : bool :=
  match a, b with
  | NaN, _ | _, NaN => false
  | Fin p, Fin q => Qle_bool p q
  | NInf, _ | _, PInf => true
  | PInf, _ | _, NInf => false
  end.

Definition num_gt (a b : number) : bool := num_lt b a.
Definition num_ge (a b : number) : bool := num_le b a.

(** [a === b] on numbers: [NaN] equals nothing *)
Definition num_eq (a b : number) : bool :=
  match a, b with
  | Fin p, Fin q => Qeq_bool p q
  | PInf, PInf | NInf, NInf => true
  | _, _ => false
  end.

Definition Math_abs (a : number) : number :=
  match a with
  | Fin q => Fin (Qabs q)
  | PInf | NInf => PInf
  | NaN => NaN
  end.

Notation "a + b" := (num_add a b) : number_scope.
Notation "a - b" := (num_sub a b) : number_scope.
Notation "a * b" := (num_mul a b) : number_scope.
Notation "a / b" := (num_div a b) : number_scope.
Notation "a <? b" := (num_lt a b) (at level 70) : number_scope.
Notation "a <=? b" := (num_le a b) (at level 70) : number_scope.
Notation "a >? b" := (num_gt a b) (at level 70) : number_scope.
Notation "a >=? b" := (num_ge a b) (at level 70) : number_scope.
Notation "a === b" := (num_eq a b) (at level 70) : number_scope.

(** numeric literals of the sources *)
Definition n0 : number := Fin 0.
Definition n1 : number := Fin 1.
Definition n2 : number := Fin 2.
Definition n5 : number := Fin 5.
Definition n0_01 : number := Fin (1 # 100).

(** ** JavaScript values

    What an [update] or an [endCondition] may hand back: the camera tests
    these results with [===]. *)

Definition ref := nat.

Inductive jsval : Type :=
| JUndefined
| JNull
| JBool (b : bool)
| JNumber (n : number)
| JString (s : string)
| JObject (r : ref).

Definition truthy (v : jsval) : bool :=
  match v with
  | JUndefined | JNull => false
  | JBool b => b
  | JNumber (Fin q) => negb (Qeq_bool q 0)
  | JNumber NaN => false
  | JNumber _ => true
  | JString s => negb (String.eqb s EmptyString)
  | JObject _ => true
  end.

(** [v === w] *)
Definition strict_equal (v w : jsval) : bool :=
  match v, w with
  | JUndefined, JUndefined | JNull, JNull => true
  | JBool a, JBool b => Bool.eqb a b
  | JNumber a, JNumber b => num_eq a b
  | JString a, JString b => String.eqb a b
  | JObject a, JObject b => Nat.eqb a b
  | _, _ => false
  end.

(** ** The scene graph (external collaborator)

    Only the properties the effects read and write. *)

Record Vector2 : Type := mkVector2 { x : number; y : number }.

Record Container : Type := mkContainer {
  pivot : Vector2;
  scale : Vector2;
  angle : number;
  width : number;
  height : number;
  children : list ref
}.

Record Sprite : Type := mkSprite {
  sprite_width : number;
  sprite_height : number;
  alpha : number;
  tint : number
}.

(** The host's side of the world: the scene graph, and the variables of
    the host that its closures (end conditions, custom effects) capture. *)
Record Scene : Type := mkScene {
  containers : ref -> Container;
  sprites : ref -> Sprite;
  variables : ref -> jsval
}.

(** pointwise update of a store *)
Definition store_set {A : Type} (m : ref -> A) (r : ref) (a : A) : ref -> A :=
  fun r' => if Nat.eqb r' r then a else m r'.

Definition set_pivot_x (v : number) (c : Container) : Container :=
  mkContainer (mkVector2 v (y (pivot c))) (scale c) (angle c)
              (width c) (height c) (children c).
Definition set_pivot_y (v : number) (c : Container) : Container :=
  mkContainer (mkVector2 (x (pivot c)) v) (scale c) (angle c)
              (width c) (height c) (children c).
Definition set_scale_x (v : number) (c : Container) : Container :=
  mkContainer (pivot c) (mkVector2 v (y (scale c))) (angle c)
              (width c) (height c) (children c).
Definition set_scale_y (v : number) (c : Container) : Container :=
  mkContainer (pivot c) (mkVector2 (x (scale c)) v) (angle c)
              (width c) (height c) (children c).
Definition set_angle (v : number) (c : Container) : Container :=
  mkContainer (pivot c) (scale c) v (width c) (height c) (children c).
Definition addChild (child : ref) (c : Container) : Container :=
  mkContainer (pivot c) (scale c) (angle c) (width c) (height c)
              (children c ++ [child]).

Definition set_sprite_width (v : number) (s : Sprite) : Sprite :=
  mkSprite v (sprite_height s) (alpha s) (tint s).
Definition set_sprite_height (v : number) (s : Sprite) : Sprite :=
  mkSprite (sprite_width s) v (alpha s) (tint s).
Definition set_alpha (v : number) (s : Sprite) : Sprite :=
  mkSprite (sprite_width s) (sprite_height s) v (tint s).
Definition set_tint (v : number) (s : Sprite) : Sprite :=
  mkSprite (sprite_width s) (sprite_height s) (alpha s) v.

Definition on_container (c : ref) (f : Container -> Container) (s : Scene)
  : Scene :=
  mkScene (store_set (containers s) c (f (containers s c))) (sprites s)
          (variables s).

Definition on_sprite (p : ref) (f : Sprite -> Sprite) (s : Scene) : Scene :=
  mkScene (containers s) (store_set (sprites s) p (f (sprites s p)))
          (variables s).

Definition set_variable (v : ref) (a : jsval) (s : Scene) : Scene :=
  mkScene (containers s) (sprites s) (store_set (variables s) v a).

(** ** Effects *)

(** models/CameraEffectOptions: the [options] object of an effect. The
    end condition is a closure of the host: it is given the frame delta
    and reads what it captured of the host's side of the world. *)
Record CameraEffectOptions : Type := mkOptions {
  duration : number;
  endCondition : option (number -> Scene -> jsval)
}.

(** The [options] argument of a constructor, where the whole object or
    either property may be absent. *)
Record OptionsArg : Type := mkOptionsArg {
  arg_duration : option number;
  arg_endCondition : option (number -> Scene -> jsval)
}.

Definition EasingFn := number -> number.

(** [(t: number) => +t] *)
Definition linear : EasingFn := fun t => t.

(** The private fields of the concrete classes. [CustomEffect] is a
    subclass written by the host: its [update] is given the delta, its own
    [startedTimeStamp], [lastRanTimeStamp] and [options], acts on the
    host's side of the world and may return any value; its [onEnd] is
    optional. *)
Inductive EffectClass : Type :=
| ShakeEffect (intensity : number) (_initialPivotVector : Vector2)
| PanEffect (_coordinates _difference : Vector2)
            (_xIsGreater _yIsGreater : bool)
| ZoomEffect (_zoomLevel : Vector2) (_easingFn : EasingFn)
             (_initialZoomLevel : Vector2) (_xIsGreater _yIsGreater : bool)
| RotateEffect (_angle _initialAngle : number) (_initialPivot : Vector2)
               (_easingFn : EasingFn)
| FadeEffect (_filter : ref) (_color _opacity : number)
             (_easingFn : EasingFn) (_isFadeOut : bool)
             (_initialOpacity : number)
| CustomEffect
    (custom_update :
       number -> number -> number -> CameraEffectOptions -> Scene ->
       jsval * Scene)
    (custom_onEnd : option (Scene -> Scene)).

Record CameraEffect : Type := mkEffect {
  container : ref;
  options : CameraEffectOptions;
  startedTimeStamp : number;
  lastRanTimeStamp : number;
  class : EffectClass
}.

(** CameraEffect.constructor *)
Definition CameraEffect_constructor
  (container : ref) (options : option OptionsArg) (cls : EffectClass)
  : CameraEffect :=
  mkEffect container
    (mkOptions
       (* (options && options.duration) || 0 *)
       match options with
       | Some o =>
           match arg_duration o with
           | Some d => if truthy (JNumber d) then d else n0
           | None => n0
           end
       | None => n0
       end
       (* (options && options.endCondition) || undefined *)
       match options with
       | Some o => arg_endCondition o
       | None => None
       end)
    n0 n0 cls.

(** ** The world: scene, effect objects, oracles and the call log *)

Inductive Call : Type :=
| CallUpdate (effect : ref) (delta : number)
| CallEndCondition (effect : ref) (delta : number)
| CallOnEnd (effect : ref).

Record World : Type := mkWorld {
  scene : Scene;
  heap : ref -> CameraEffect;
  clock : nat -> number;        (* readings of performance.now() *)
  clock_reads : nat;
  random : nat -> number;       (* readings of Math.random() *)
  random_reads : nat;
  calls : list Call
}.

(** state passing: a computation returns its result and the next world *)
Definition M (A : Type) : Type := World -> A * World.

Definition ret {A} (a : A) : M A := fun w => (a, w).

Definition bind {A B} (m : M A) (k : A -> M B) : M B :=
  fun w => let (a, w') := m w in k a w'.

Notation "v <- m ;; k" := (bind m (fun v => k))
  (at level 61, m at next level, right associativity).
Notation "m ;; k" := (bind m (fun _ => k))
  (at level 61, right associativity).

Definition performance_now : M number :=
  fun w =>
    (clock w (clock_reads w),
     mkWorld (scene w) (heap w) (clock w) (S (clock_reads w))
             (random w) (random_reads w) (calls w)).

Definition Math_random : M number :=
  fun w =>
    (random w (random_reads w),
     mkWorld (scene w) (heap w) (clock w) (clock_reads w)
             (random w) (S (random_reads w)) (calls w)).

Definition get_scene : M Scene := fun w => (scene w, w).

Definition modify_scene (f : Scene -> Scene) : M unit :=
  fun w =>
    (tt, mkWorld (f (scene w)) (heap w) (clock w) (clock_reads w)
                 (random w) (random_reads w) (calls w)).

Definition read_effect (r : ref) : M CameraEffect := fun w => (heap w r, w).

Definition write_effect (r : ref) (e : CameraEffect) : M unit :=
  fun w =>
    (tt, mkWorld (scene w) (store_set (heap w) r e) (clock w) (clock_reads w)
                 (random w) (random_reads w) (calls w)).

Definition record (c : Call) : M unit :=
  fun w =>
    (tt, mkWorld (scene w) (heap w) (clock w) (clock_reads w)
                 (random w) (random_reads w) (calls w ++ [c])).

Definition set_startedTimeStamp (r : ref) (t : number) : M unit :=
  e <- read_effect r ;;
  write_effect r (mkEffect (container e) (options e) t
                           (lastRanTimeStamp e) (class e)).

Definition set_lastRanTimeStamp (r : ref) (t : number) : M unit :=
  e <- read_effect r ;;
  write_effect r (mkEffect (container e) (options e) (startedTimeStamp e)
                           t (class e)).

Local Open Scope number_scope.

(** ** ShakeEffect *)

Definition ShakeEffect_constructor
  (container : ref) (options : option OptionsArg) (intensity : number)
  (s : Scene) : CameraEffect * Scene :=
  let _initialPivotVector :=
    mkVector2 (x (pivot (containers s container)))
              (y (pivot (containers s container))) in
  (CameraEffect_constructor container options
     (ShakeEffect intensity _initialPivotVector), s).

Definition ShakeEffect_update (this : CameraEffect) (intensity : number)
  : M jsval :=
  r1 <- Math_random ;;
  let dx := r1 * intensity in
  r2 <- Math_random ;;
  let dy := r2 * intensity in
  modify_scene (on_container (container this) (set_pivot_x dx)) ;;
  modify_scene (on_container (container this) (set_pivot_y dy)) ;;
  ret JUndefined.

Definition ShakeEffect_onEnd (this : CameraEffect)
  (_initialPivotVector : Vector2) : M unit :=
  modify_scene
    (on_container (container this) (set_pivot_x (x _initialPivotVector))) ;;
  modify_scene
    (on_container (container this) (set_pivot_y (y _initialPivotVector))).

(** ** PanEffect *)

Definition PanEffect_constructor
  (container : ref) (options : option OptionsArg) (location : Vector2)
  (s : Scene) : CameraEffect * Scene :=
  let _coordinates := location in
  let p := pivot (containers s container) in
  let _xIsGreater := x _coordinates >? x p in
  let _yIsGreater := y _coordinates >? y p in
  let _difference :=
    mkVector2 (Math_abs (x _coordinates - x p))
              (Math_abs (y _coordinates - y p)) in
  (CameraEffect_constructor container options
     (PanEffect _coordinates _difference _xIsGreater _yIsGreater), s).

Definition PanEffect_update (this : CameraEffect)
  (_coordinates _difference : Vector2) (_xIsGreater _yIsGreater : bool)
  : M jsval :=
  let timeDiffPercentage :=
    (lastRanTimeStamp this - startedTimeStamp this)
    / duration (options this) in
  let timeDiffPercentageNegative :=
    (duration (options this) - lastRanTimeStamp this)
    / duration (options this) in
  let xPanAmount :=
    if _xIsGreater then x _difference * timeDiffPercentage
    else x _difference * timeDiffPercentageNegative in
  let yPanAmount :=
    if _yIsGreater then y _difference * timeDiffPercentage
    else y _difference * timeDiffPercentageNegative in
  modify_scene (on_container (container this) (set_pivot_x xPanAmount)) ;;
  modify_scene (on_container (container this) (set_pivot_y yPanAmount)) ;;
  s <- get_scene ;;
  let p := pivot (containers s (container this)) in
  if (x p >? x _coordinates - n5) && (x p <? x _coordinates + n5)
     && (y p >? y _coordinates - n5) && (y p <? y _coordinates + n5)
  then ret (JBool false)
  else ret JUndefined.

(** ** ZoomEffect *)

Definition ZoomEffect_constructor
  (container : ref) (options : option OptionsArg) (zoomLevel : Vector2)
  (easingFn : option EasingFn) (s : Scene) : CameraEffect * Scene :=
  let _zoomLevel := zoomLevel in
  let _easingFn := match easingFn with Some f => f | None => linear end in
  let _initialZoomLevel :=
    mkVector2 (x (scale (containers s container)))
              (y (scale (containers s container))) in
  let _xIsGreater := x _zoomLevel >? x _initialZoomLevel in
  let _yIsGreater := y _zoomLevel >? y _initialZoomLevel in
  (CameraEffect_constructor container options
     (ZoomEffect _zoomLevel _easingFn _initialZoomLevel
                 _xIsGreater _yIsGreater), s).

Definition ZoomEffect_update (this : CameraEffect)
  (_zoomLevel : Vector2) (_easingFn : EasingFn)
  (_initialZoomLevel : Vector2) (_xIsGreater _yIsGreater : bool)
  : M jsval :=
  let timeDiffPercentage :=
    (lastRanTimeStamp this - startedTimeStamp this)
    / duration (options this) in
  let percentageThroughAnimation := _easingFn timeDiffPercentage in
  let xZoomAmount := x _zoomLevel * percentageThroughAnimation in
  let yZoomAmount := y _zoomLevel * percentageThroughAnimation in
  modify_scene
    (on_container (container this)
       (set_scale_x
          (if _xIsGreater then x _initialZoomLevel + xZoomAmount / n2
           else x _initialZoomLevel - xZoomAmount))) ;;
  modify_scene
    (on_container (container this)
       (set_scale_y
          (if _yIsGreater then y _initialZoomLevel + yZoomAmount / n2
           else y _initialZoomLevel - yZoomAmount))) ;;
  s <- get_scene ;;
  let sc := scale (containers s (container this)) in
  if (x sc >? x _zoomLevel - n0_01) && (x sc <? x _zoomLevel + n0_01)
     && (y sc >? y _zoomLevel - n0_01) && (y sc <? y _zoomLevel + n0_01)
  then ret (JBool false)
  else ret JUndefined.

(** ** RotateEffect *)

Definition RotateEffect_constructor
  (container : ref) (options : option OptionsArg) (angle_arg : number)
  (easingFn : option EasingFn) (s : Scene) : CameraEffect * Scene :=
  let _initialPivot :=
    mkVector2 (x (pivot (containers s container)))
              (y (pivot (containers s container))) in
  let _initialAngle := angle (containers s container) in
  let _angle := angle_arg in
  let _easingFn := match easingFn with Some f => f | None => linear end in
  let s1 :=
    if x _initialPivot === n0
    then on_container container
           (set_pivot_x (width (containers s container) / n2)) s
    else s in
  let s2 :=
    if y _initialPivot === n0
    then on_container container
           (set_pivot_y (height (containers s1 container) / n2)) s1
    else s1 in
  (CameraEffect_constructor container options
     (RotateEffect _angle _initialAngle _initialPivot _easingFn), s2).

Definition RotateEffect_update (this : CameraEffect)
  (_angle _initialAngle : number) (_easingFn : EasingFn) : M jsval :=
  let timeDiffPercentage :=
    (lastRanTimeStamp this - startedTimeStamp this)
    / duration (options this) in
  let percentageThroughAnimation := _easingFn timeDiffPercentage in
  let angleAmount := _angle * percentageThroughAnimation in
  modify_scene
    (on_container (container this) (set_angle (_initialAngle + angleAmount))) ;;
  s <- get_scene ;;
  if angle (containers s (container this)) >? _angle
  then ret (JBool false)
  else ret JUndefined.

(** ** FadeEffect *)

Definition FadeEffect_constructor
  (container : ref) (options : option OptionsArg) (filter : ref)
  (color opacity : number) (easingFn : option EasingFn) (s : Scene)
  : CameraEffect * Scene :=
  let _color := color in
  let _opacity := opacity in
  let _easingFn := match easingFn with Some f => f | None => linear end in
  let _filter := filter in
  let s1 :=
    on_sprite _filter (set_sprite_width (width (containers s container))) s in
  let s2 :=
    on_sprite _filter
      (set_sprite_height (height (containers s1 container))) s1 in
  let s3 := on_sprite _filter (set_alpha n0) s2 in
  let s4 := on_sprite _filter (set_tint _color) s3 in
  let s5 := on_container container (addChild _filter) s4 in
  let _initialOpacity := alpha (sprites s5 _filter) in
  let _isFadeOut :=
    if alpha (sprites s5 _filter) >? _opacity then false else true in
  (CameraEffect_constructor container options
     (FadeEffect _filter _color _opacity _easingFn _isFadeOut
                 _initialOpacity), s5).

Definition FadeEffect_update (this : CameraEffect)
  (_filter : ref) (_opacity : number) (_easingFn : EasingFn)
  (_isFadeOut : bool) (_initialOpacity : number) : M jsval :=
  let timeDiffPercentage :=
    (lastRanTimeStamp this - startedTimeStamp this)
    / duration (options this) in
  let percentageThroughAnimation := _easingFn timeDiffPercentage in
  let fadeAmount := n1 * percentageThroughAnimation in
  modify_scene
    (on_sprite _filter
       (set_alpha
          (if _isFadeOut then fadeAmount
           else _initialOpacity - fadeAmount))) ;;
  s <- get_scene ;;
  let a := alpha (sprites s _filter) in
  if (_isFadeOut && (a >=? _opacity - n0_01))
     || (negb _isFadeOut && (a <=? _opacity + n0_01))
  then ret (JBool false)
  else ret JUndefined.

(** ** Method dispatch on an effect object *)

(** [effect.update(delta)] *)
Definition CameraEffect_update (effect : ref) (delta : number) : M jsval :=
  record (CallUpdate effect delta) ;;
  this <- read_effect effect ;;
  match class this with
  | ShakeEffect intensity _ => ShakeEffect_update this intensity
  | PanEffect co di xg yg => PanEffect_update this co di xg yg
  | ZoomEffect zl fn iz xg yg => ZoomEffect_update this zl fn iz xg yg
  | RotateEffect an ia _ fn => RotateEffect_update this an ia fn
  | FadeEffect fi _ op fn fo io => FadeEffect_update this fi op fn fo io
  | CustomEffect upd _ =>
      s <- get_scene ;;
      let (v, s') :=
        upd delta (startedTimeStamp this) (lastRanTimeStamp this)
            (options this) s in
      modify_scene (fun _ => s') ;;
      ret v
  end.

(** the class defines [onEnd] *)
Definition has_onEnd (e : CameraEffect) : bool :=
  match class e with
  | ShakeEffect _ _ => true
  | CustomEffect _ (Some _) => true
  | _ => false
  end.

(** [if (effect.onEnd) effect.onEnd()] *)
Definition CameraEffect_onEnd (effect : ref) : M unit :=
  this <- read_effect effect ;;
  match class this with
  | ShakeEffect _ ipv =>
      record (CallOnEnd effect) ;; ShakeEffect_onEnd this ipv
  | CustomEffect _ (Some f) =>
      record (CallOnEnd effect) ;; modify_scene f
  | _ => ret tt
  end.

(** [effect.options.endCondition && effect.options.endCondition(delta) === true] *)
Definition endConditionReached (effect : ref) (delta : number) : M jsval :=
  this <- read_effect effect ;;
  match endCondition (options this) with
  | None => ret JUndefined
  | Some f =>
      record (CallEndCondition effect delta) ;;
      s <- get_scene ;;
      ret (JBool (strict_equal (f delta s) (JBool true)))
  end.

(** ** Camera *)

Record Camera : Type := mkCamera { _effects : list ref }.

Definition effects (c : Camera) : list ref := _effects c.

(** a new camera: [_effects = []] *)
Definition Camera_new : Camera := mkCamera [].

Definition addEffect (effect : ref) (this : Camera) : M Camera :=
  ret (mkCamera (effects this ++ [effect])).

Definition removeEffect (effect : ref) (this : Camera) : M Camera :=
  ret (mkCamera (List.filter (fun e => negb (Nat.eqb e effect))
                             (_effects this))).

(** [Array.prototype.filter] with a callback that acts on the world:
    the elements are visited from the first to the last, once each. *)
Fixpoint Array_filter (f : ref -> M bool) (l : list ref) : M (list ref) :=
  match l with
  | [] => ret []
  | e :: l' =>
      keep <- f e ;;
      rest <- Array_filter f l' ;;
      ret (if keep then e :: rest else rest)
  end.

(** the first statement of the callback: on the effect's first run the
    start is stamped *)
Definition stamp_first_run (effect : ref) : M unit :=
  e <- read_effect effect ;;
  if startedTimeStamp e === n0
  then t <- performance_now ;; set_startedTimeStamp effect t
  else ret tt.

(** the callback Camera.update passes to [filter] *)
Definition update_callback (delta : number) (effect : ref) : M bool :=
  stamp_first_run effect ;;
  continueEffect <- CameraEffect_update effect delta ;;
  if strict_equal continueEffect (JBool false) then
    CameraEffect_onEnd effect ;;
    ret false
  else
    t <- performance_now ;;
    set_lastRanTimeStamp effect t ;;
    currentTimestamp <- performance_now ;;
    e <- read_effect effect ;;
    let durationReached :=
      currentTimestamp - startedTimeStamp e >=? duration (options e) in
    reached <- endConditionReached effect delta ;;
    if durationReached || truthy reached then
      CameraEffect_onEnd effect ;;
      ret false
    else ret true.

Definition Camera_update (delta : number) (this : Camera) : M Camera :=
  l <- Array_filter (update_callback delta) (_effects this) ;;
  ret (mkCamera l).

(** the host's frame loop: one [update] per frame delta *)
Fixpoint Camera_ticks (deltas : list number) (this : Camera) : M Camera :=
  match deltas with
  | [] => ret this
  | d :: ds => c <- Camera_update d this ;; Camera_ticks ds c
  end.

(** ** Vocabulary of the statements *)

(** the options argument lacks a duration: no object, or no property *)
Definition duration_absent (arg : option OptionsArg) : bool :=
  match arg with
  | None => true
  | Some o => match arg_duration o with None => true | Some _ => false end
  end.

(** an effect object later in its life: the camera has stamped it *)
Definition stamped (started lastRan : number) (e : CameraEffect)
  : CameraEffect :=
  mkEffect (container e) (options e) started lastRan (class e).

(** the five classes of the library, as opposed to a host's subclass *)
Definition stock (e : CameraEffect) : bool :=
  match class e with CustomEffect _ _ => false | _ => true end.

(** The spec's words for Pan: linear interpolation from [a] toward [b]. *)
Definition lerp (a b t : number) : number := a + (b - a) * t.

(** component-wise [===] on vectors *)
Definition Vector2_eq (u v : Vector2) : bool :=
  (x u === x v) && (y u === y v).

(** the calls of [update], and of [onEnd], on the effect [r] in a log *)
Definition updates_of (r : ref) (l : list Call) : nat :=
  List.length
    (List.filter
       (fun c => match c with CallUpdate e _ => Nat.eqb e r | _ => false end)
       l).

Definition onEnds_of (r : ref) (l : list Call) : nat :=
  List.length
    (List.filter
       (fun c => match c with CallOnEnd e => Nat.eqb e r | _ => false end)
       l).

(** What an effect of class [cls] on the container [c] may have written
    between the scenes [s] and [s'], in terms of the properties the
    effects assign (pivot, scale and angle of a container, opacity and
    tint of a sprite) and of the children lists: a shake or a pan the
    pivot of [c], a zoom its scale, a rotation its angle, a fade the
    opacity of its overlay sprite; nothing else. *)
Definition footprint (cls : EffectClass) (c : ref) (s s' : Scene) : Prop :=
  (forall c', c' <> c ->
     pivot (containers s' c') = pivot (containers s c') /\
     scale (containers s' c') = scale (containers s c') /\
     angle (containers s' c') = angle (containers s c') /\
     children (containers s' c') = children (containers s c')) /\
  children (containers s' c) = children (containers s c) /\
  (forall p, tint (sprites s' p) = tint (sprites s p)) /\
  match cls with
  | ShakeEffect _ _ | PanEffect _ _ _ _ =>
      scale (containers s' c) = scale (containers s c) /\
      angle (containers s' c) = angle (containers s c) /\
      forall p, alpha (sprites s' p) = alpha (sprites s p)
  | ZoomEffect _ _ _ _ _ =>
      pivot (containers s' c) = pivot (containers s c) /\
      angle (containers s' c) = angle (containers s c) /\
      forall p, alpha (sprites s' p) = alpha (sprites s p)
  | RotateEffect _ _ _ _ =>
      pivot (containers s' c) = pivot (containers s c) /\
      scale (containers s' c) = scale (containers s c) /\
      forall p, alpha (sprites s' p) = alpha (sprites s p)
  | FadeEffect f _ _ _ _ _ =>
      pivot (containers s' c) = pivot (containers s c) /\
      scale (containers s' c) = scale (containers s c) /\
      angle (containers s' c) = angle (containers s c) /\
      forall p, p <> f -> alpha (sprites s' p) = alpha (sprites s p)
  | CustomEffect _ _ => True
  end.

(** ** Order of the entries of an array *)

(** [l] is [l'] with some entries left out, the others in their order *)
Inductive subsequence {A : Type} : list A -> list A -> Prop :=
| subsequence_nil : subsequence [] []
| subsequence_skip a l l' : subsequence l l' -> subsequence l (a :: l')
| subsequence_keep a l l' : subsequence l l' -> subsequence (a :: l) (a :: l').

(** ** Sample scenes, used to run the code on concrete inputs *)

Definition origin : Vector2 := mkVector2 n0 n0.

(** a fresh 800 by 600 container, as PIXI makes it: pivot at the origin,
    scale 1, angle 0 *)
Definition stage : Container :=
  mkContainer origin (mkVector2 n1 n1) n0 (Fin 800) (Fin 600) [].

(** the same container with pivot, angle and scale moved off their
    defaults *)
Definition moved_stage : Container :=
  mkContainer (mkVector2 (Fin 100) (Fin 100)) (mkVector2 n2 n2) (Fin 90)
              (Fin 800) (Fin 600) [].

(** a white sprite *)
Definition white : Sprite := mkSprite n1 n1 n1 (Fin 16777215).

Definition scene_of (c : Container) : Scene :=
  mkScene (fun _ => c) (fun _ => white) (fun _ => JNumber n0).

(** a world holding one effect object, nothing called yet *)
Definition world_of (s : Scene) (e : CameraEffect) (clk : nat -> number)
  : World :=
  mkWorld s (fun _ => e) clk 0%nat (fun _ => Fin (1 # 2)) 0%nat [].

Definition ms (d : Q) : option OptionsArg :=
  Some (mkOptionsArg (Some (Fin d)) None).

(** a clock that reads 0 during the first tick and 16 afterwards *)
Definition clock_from_zero : nat -> number :=
  fun k => if Nat.ltb k 3%nat then Fin 0 else Fin 16.

(** the frame a clock reading belongs to, for a camera holding one effect
    that is kept: three readings in the effect's first tick, two in each
    later one *)
Definition frame (k : nat) : nat := Nat.max 1 ((k + 1) / 2)%nat.

(** a clock that advances by [step] ms from one tick to the next *)
Definition clock_every (step : Q) : nat -> number :=
  fun k => Fin (step * inject_Z (Z.of_nat (frame k))).

Definition clock_frames : nat -> number := clock_every 16.

Definition shake_1000 : CameraEffect :=
  fst (ShakeEffect_constructor 0%nat (ms 1000) n5 (scene_of stage)).

(** shake a container whose pivot stands at (100, 100), for 1 s *)
Definition shake_moved : CameraEffect :=
  fst (ShakeEffect_constructor 0%nat (ms 1000) n5 (scene_of moved_stage)).

(** a shake without a time limit *)
Definition shake_forever : CameraEffect :=
  fst (ShakeEffect_constructor 0%nat
         (Some (mkOptionsArg (Some Infinity) None)) n5 (scene_of stage)).

(** a shake of 10 s whose end condition answers [v], whatever the delta *)
Definition shake_until (v : jsval) : CameraEffect :=
  fst (ShakeEffect_constructor 0%nat
         (Some (mkOptionsArg (Some (Fin 10000)) (Some (fun _ _ => v))))
         n5 (scene_of stage)).

(** a shake of 10 s with the end condition [() => i === 100], [i] being
    the host's variable 0 *)
Definition shake_until_100 : CameraEffect :=
  fst (ShakeEffect_constructor 0%nat
         (Some (mkOptionsArg (Some (Fin 10000))
                  (Some (fun _ s =>
                           JBool (strict_equal (variables s 0%nat)
                                               (JNumber (Fin 100)))))))
         n5 (scene_of stage)).

(** [i++] on the host's variable 0 *)
Definition increment_i (s : Scene) : Scene :=
  set_variable 0%nat
    (match variables s 0%nat with
     | JNumber n => JNumber (n + n1)
     | _ => JNumber NaN
     end) s.

(** the ticker callback [(delta) => { camera.update(delta); i++; }], run
    for [n] frames *)
Fixpoint frames_counting (n : nat) (this : Camera) : M Camera :=
  match n with
  | O => ret this
  | S n' =>
      c <- Camera_update n1 this ;;
      modify_scene increment_i ;;
      frames_counting n' c
  end.

(** pan from the pivot (100, 100) to (200, 200) in 2 s *)
Definition pan_far : CameraEffect :=
  fst (PanEffect_constructor 0%nat (ms 2000)
         (mkVector2 (Fin 200) (Fin 200)) (scene_of moved_stage)).

(** rotate a container standing at 90 degrees to 45 degrees in 2 s *)
Definition rotate_back : CameraEffect * Scene :=
  RotateEffect_constructor 0%nat (ms 2000) (Fin 45) None
    (scene_of moved_stage).


(** fade to black, opacity 1, in 2 s, with the easing [fn] *)
Definition fade_black (fn : option EasingFn) : CameraEffect * Scene :=
  FadeEffect_constructor 0%nat (ms 2000) 0%nat (Fin 0) n1 fn
    (scene_of stage).


(** * Properties *)

(** ** Stores *)

Lemma store_set_same {A} (m : ref -> A) r a : store_set m r a r = a.
Proof. unfold store_set. now rewrite Nat.eqb_refl. Qed.

Lemma store_set_other {A} (m : ref -> A) r r' a :
  r' <> r -> store_set m r a r' = m r'.
Proof.
  intros H. unfold store_set.
  destruct (Nat.eqb_spec r' r); [contradiction | reflexivity].
Qed.

(** ** Order facts on numbers *)

Lemma Qlt_bool_iff p q : Qlt_bool p q = true <-> (p < q)%Q.
Proof.
  unfold Qlt_bool. rewrite negb_true_iff.
  split; intros H.
  - apply Qnot_le_lt. intros Hle. apply Qle_bool_iff in Hle. congruence.
  - destruct (Qle_bool q p) eqn:E; [| reflexivity].
    apply Qle_bool_iff in E. exfalso. apply (Qlt_not_le _ _ H E).
Qed.

Lemma num_lt_not_ge a b : (a <? b) = true -> (a >=? b) = false.
Proof.
  unfold num_ge.
  destruct a as [p| | |], b as [q| | |]; simpl; try congruence.
  intros H. apply Qlt_bool_iff in H.
  destruct (Qle_bool q p) eqn:E; [| reflexivity].
  apply Qle_bool_iff in E. exfalso. apply (Qlt_not_le _ _ H E).
Qed.

Lemma num_lt_not_gt a b : (a <? b) = true -> (a >? b) = false.
Proof.
  unfold num_gt.
  destruct a as [p| | |], b as [q| | |]; simpl; try congruence.
  intros H. apply Qlt_bool_iff in H.
  destruct (Qlt_bool q p) eqn:E; [| reflexivity].
  apply Qlt_bool_iff in E. exfalso. apply (Qlt_not_le _ _ H). now apply Qlt_le_weak.
Qed.



(** an infinite duration is never met by a finite elapsed time *)
Lemma num_ge_Infinity a : isFinite a = true -> (a >=? Infinity) = false.
Proof. destruct a; simpl; congruence. Qed.

Lemma num_sub_finite a b :
  isFinite a = true -> isFinite b = true -> isFinite (a - b) = true.
Proof. destruct a, b; simpl; congruence. Qed.

Lemma num_add_exceeds a i m :
  (a <? i) = true -> (n0 <=? m) = true -> (i + m >? a) = true.
Proof.
  unfold num_gt, n0.
  destruct a as [p| | |], i as [q| | |], m as [r| | |]; simpl;
    try congruence; intros H1 H2.
  apply Qlt_bool_iff in H1. apply Qle_bool_iff in H2.
  apply Qlt_bool_iff. lra.
Qed.



Arguments num_add : simpl never.
Arguments num_sub : simpl never.
Arguments num_mul : simpl never.
Arguments num_div : simpl never.
Arguments num_lt : simpl never.
Arguments num_le : simpl never.
Arguments num_gt : simpl never.
Arguments num_ge : simpl never.
Arguments num_eq : simpl never.
Arguments truthy : simpl never.

(** ** What the calls on an effect leave untouched *)

Ltac run := unfold bind, ret, record, read_effect, write_effect, get_scene,
  modify_scene, performance_now, Math_random in *; simpl in *.

(** [update] of any class acts on the scene only: the effect objects and
    the clock are as before, and the call is logged. *)
Lemma CameraEffect_update_frame effect delta w :
  let w' := snd (CameraEffect_update effect delta w) in
  heap w' = heap w /\ clock w' = clock w /\
  clock_reads w' = clock_reads w /\
  calls w' = calls w ++ [CallUpdate effect delta].
Proof.
  unfold CameraEffect_update. run.
  destruct (class (heap w effect)) eqn:C; simpl.
  - unfold ShakeEffect_update; run; auto.
  - unfold PanEffect_update; run.
    match goal with |- context [if ?b then _ else _] => destruct b end;
      simpl; auto.
  - unfold ZoomEffect_update; run.
    match goal with |- context [if ?b then _ else _] => destruct b end;
      simpl; auto.
  - unfold RotateEffect_update; run.
    match goal with |- context [if ?b then _ else _] => destruct b end;
      simpl; auto.
  - unfold FadeEffect_update; run.
    match goal with |- context [if ?b then _ else _] => destruct b end;
      simpl; auto.
  - destruct (custom_update _ _ _ _ _); simpl; auto.
Qed.

Lemma CameraEffect_onEnd_frame effect w :
  let w' := snd (CameraEffect_onEnd effect w) in
  heap w' = heap w /\ clock w' = clock w /\
  clock_reads w' = clock_reads w /\
  calls w' =
    calls w ++ (if has_onEnd (heap w effect) then [CallOnEnd effect] else []).
Proof.
  unfold CameraEffect_onEnd, has_onEnd. run.
  destruct (class (heap w effect)) eqn:C; simpl;
    rewrite ?app_nil_r; auto.
  destruct custom_onEnd; simpl; rewrite ?app_nil_r; auto.
Qed.

Lemma endConditionReached_frame effect delta w :
  let r := endConditionReached effect delta w in
  snd r =
    mkWorld (scene w) (heap w) (clock w) (clock_reads w) (random w)
      (random_reads w)
      (calls w ++
         match endCondition (options (heap w effect)) with
         | Some _ => [CallEndCondition effect delta]
         | None => []
         end) /\
  fst r =
    match endCondition (options (heap w effect)) with
    | Some f => JBool (strict_equal (f delta (scene w)) (JBool true))
    | None => JUndefined
    end.
Proof.
  unfold endConditionReached. run.
  destruct (endCondition (options (heap w effect))); simpl;
    rewrite ?app_nil_r; auto.
  destruct w; auto.
Qed.

(** ** The lifecycle of one effect in one tick *)

(** the world the effect's [update] runs in: the start is stamped if this
    is the effect's first tick *)
Lemma stamp_first_run_world effect w :
  let e := heap w effect in
  snd (stamp_first_run effect w) =
    if startedTimeStamp e === n0
    then mkWorld (scene w)
           (store_set (heap w) effect
              (mkEffect (container e) (options e) (clock w (clock_reads w))
                        (lastRanTimeStamp e) (class e)))
           (clock w) (S (clock_reads w)) (random w) (random_reads w)
           (calls w)
    else w.
Proof.
  unfold stamp_first_run, set_startedTimeStamp. run.
  destruct (startedTimeStamp (heap w effect) === n0); reflexivity.
Qed.

Lemma update_callback_unfold delta effect w :
  let e := heap w effect in
  let w1 :=
    if startedTimeStamp e === n0
    then mkWorld (scene w)
           (store_set (heap w) effect
              (mkEffect (container e) (options e) (clock w (clock_reads w))
                        (lastRanTimeStamp e) (class e)))
           (clock w) (S (clock_reads w)) (random w) (random_reads w)
           (calls w)
    else w in
  let v := fst (CameraEffect_update effect delta w1) in
  let w2 := snd (CameraEffect_update effect delta w1) in
  update_callback delta effect w =
    if strict_equal v (JBool false)
    then (false, snd (CameraEffect_onEnd effect w2))
    else
      let e2 := heap w2 effect in
      let w3 :=
        mkWorld (scene w2)
          (store_set (heap w2) effect
             (mkEffect (container e2) (options e2) (startedTimeStamp e2)
                       (clock w2 (clock_reads w2)) (class e2)))
          (clock w2) (S (S (clock_reads w2))) (random w2) (random_reads w2)
          (calls w2) in
      let durationReached :=
        clock w2 (S (clock_reads w2)) - startedTimeStamp e2
        >=? duration (options e2) in
      let r := endConditionReached effect delta w3 in
      if durationReached || truthy (fst r)
      then (false, snd (CameraEffect_onEnd effect (snd r)))
      else (true, snd r).
Proof.
  unfold update_callback, stamp_first_run, set_startedTimeStamp,
    set_lastRanTimeStamp. run.
  destruct (startedTimeStamp (heap w effect) === n0); simpl.
  - destruct (CameraEffect_update effect delta _) as [v w2]; simpl.
    destruct (strict_equal v (JBool false)); simpl.
    + destruct (CameraEffect_onEnd effect w2); reflexivity.
    + rewrite store_set_same; simpl.
      destruct (endConditionReached effect delta _) as [b w4]; simpl.
      destruct (_ || _); simpl; [| reflexivity].
      destruct (CameraEffect_onEnd effect w4); reflexivity.
  - destruct (CameraEffect_update effect delta w) as [v w2]; simpl.
    destruct (strict_equal v (JBool false)); simpl.
    + destruct (CameraEffect_onEnd effect w2); reflexivity.
    + rewrite store_set_same; simpl.
      destruct (endConditionReached effect delta _) as [b w4]; simpl.
      destruct (_ || _); simpl; [| reflexivity].
      destruct (CameraEffect_onEnd effect w4); reflexivity.
Qed.

Lemma Camera_update_cons delta e l w :
  Camera_update delta (mkCamera (e :: l)) w =
    let (keep, w') := update_callback delta e w in
    let (c', w'') := Camera_update delta (mkCamera l) w' in
    (mkCamera (if keep then e :: effects c' else effects c'), w'').
Proof.
  unfold Camera_update; simpl. unfold bind, ret.
  destruct (update_callback delta e w) as [keep w'].
  destruct (Array_filter (update_callback delta) l w') as [rest w''].
  reflexivity.
Qed.

(** C1. One tick of the registry visits the effects in insertion order,
    each once, threading the world from one to the next. For the effect
    visited: a start stamp of 0 is replaced by the clock reading; then
    [update(delta)] is called; if it returned [false] the effect is
    dropped, [onEnd] is called when the class has one, no further clock
    reading is taken, [lastRanTimeStamp] keeps its value and the end
    condition is not called; otherwise [lastRanTimeStamp] takes the next
    clock reading, the end condition is called when there is one, and the
    effect is dropped (with [onEnd] called when present) exactly when the
    elapsed time is [>=] the duration or the end condition returned
    [true]; else it is kept. *)
Theorem Camera_update_lifecycle :
  (forall delta e l w,
     Camera_update delta (mkCamera []) w = (mkCamera [], w) /\
     Camera_update delta (mkCamera (e :: l)) w =
       let (keep, w') := update_callback delta e w in
       let (c', w'') := Camera_update delta (mkCamera l) w' in
       (mkCamera (if keep then e :: effects c' else effects c'), w'')) /\
  (forall delta effect w,
     let e := heap w effect in
     let first := startedTimeStamp e === n0 in
     let started :=
       if first then clock w (clock_reads w) else startedTimeStamp e in
     let k := if first then S (clock_reads w) else clock_reads w in
     let w1 :=
       if first
       then mkWorld (scene w)
              (store_set (heap w) effect
                 (mkEffect (container e) (options e) started
                           (lastRanTimeStamp e) (class e)))
              (clock w) k (random w) (random_reads w) (calls w)
       else w in
     let continueEffect := fst (CameraEffect_update effect delta w1) in
     let w2 := snd (CameraEffect_update effect delta w1) in
     let r := update_callback delta effect w in
     let e' := heap (snd r) effect in
     startedTimeStamp e' = started /\
     if strict_equal continueEffect (JBool false) then
       fst r = false /\
       lastRanTimeStamp e' = lastRanTimeStamp e /\
       clock_reads (snd r) = k /\
       scene (snd r) = scene (snd (CameraEffect_onEnd effect w2)) /\
       calls (snd r) =
         calls w ++ [CallUpdate effect delta]
                 ++ (if has_onEnd e then [CallOnEnd effect] else [])
     else
       let durationReached :=
         clock w (S k) - started >=? duration (options e) in
       let endCond :=
         match endCondition (options e) with
         | Some f => strict_equal (f delta (scene w2)) (JBool true)
         | None => false
         end in
       let dropped := durationReached || endCond in
       fst r = negb dropped /\
       lastRanTimeStamp e' = clock w k /\
       clock_reads (snd r) = S (S k) /\
       calls (snd r) =
         calls w ++ [CallUpdate effect delta]
                 ++ match endCondition (options e) with
                    | Some _ => [CallEndCondition effect delta]
                    | None => []
                    end
                 ++ (if dropped && has_onEnd e
                     then [CallOnEnd effect] else [])).
Proof.
  split.
  - intros delta e l w. split; [reflexivity | apply Camera_update_cons].
  - intros delta effect w. cbv zeta.
    rewrite (update_callback_unfold delta effect w). cbv zeta.
    set (e := heap w effect).
    assert (Hon : forall st lr,
      has_onEnd (mkEffect (container e) (options e) st lr (class e))
      = has_onEnd e) by reflexivity.
    destruct (startedTimeStamp e === n0) eqn:First.
    + set (w1 := mkWorld _ _ _ _ _ _ _).
      destruct (CameraEffect_update_frame effect delta w1) as (Hh & Hc & Hr & Hl).
      set (w2 := snd (CameraEffect_update effect delta w1)) in *.
      assert (He2 : heap w2 effect =
        mkEffect (container e) (options e) (clock w (clock_reads w))
                 (lastRanTimeStamp e) (class e)).
      { rewrite Hh. unfold w1; simpl. apply store_set_same. }
      destruct (strict_equal _ (JBool false)).
      * destruct (CameraEffect_onEnd_frame effect w2) as (Hh' & Hc' & Hr' & Hl').
        simpl. rewrite Hh', Hr', Hr, Hl', Hl, He2, Hon. simpl.
        rewrite <- app_assoc.
        repeat split; reflexivity.
      * cbv zeta.
        set (w3 := mkWorld _ _ _ _ _ _ _).
        destruct (endConditionReached_frame effect delta w3) as (Hw4 & Hv).
        set (r := endConditionReached effect delta w3) in *.
        assert (He3 : heap w3 effect =
          mkEffect (container e) (options e) (clock w (clock_reads w))
                   (clock w (S (clock_reads w))) (class e)).
        { unfold w3; simpl. rewrite store_set_same, He2, Hc, Hr. reflexivity. }
        rewrite He3 in Hw4, Hv. simpl in Hw4, Hv.
        rewrite He2, Hc, Hr. simpl.
        assert (Htr : truthy (fst r) =
          match endCondition (options e) with
          | Some f => strict_equal (f delta (scene w2)) (JBool true)
          | None => false
          end).
        { rewrite Hv. destruct (endCondition (options e)); reflexivity. }
        rewrite Htr.
        destruct (_ || _) eqn:Dropped; simpl.
        -- destruct (CameraEffect_onEnd_frame effect (snd r))
             as (Hh' & Hc' & Hr' & Hl').
           rewrite Hh', Hr', Hl', Hw4. simpl.
           rewrite store_set_same, Hl, He2, Hc, Hr, Hon. simpl.
           rewrite <- !app_assoc. simpl.
           repeat split; reflexivity.
        -- rewrite Hw4. simpl.
           rewrite store_set_same, Hl, He2, Hc, Hr. simpl.
           rewrite <- !app_assoc. simpl. rewrite app_nil_r.
           repeat split; reflexivity.
    + destruct (CameraEffect_update_frame effect delta w) as (Hh & Hc & Hr & Hl).
      set (w2 := snd (CameraEffect_update effect delta w)) in *.
      assert (He2 : heap w2 effect = e) by (now rewrite Hh).
      destruct (strict_equal _ (JBool false)).
      * destruct (CameraEffect_onEnd_frame effect w2) as (Hh' & Hc' & Hr' & Hl').
        simpl. rewrite Hh', Hr', Hr, Hl', Hl, He2. simpl.
        rewrite <- app_assoc.
        repeat split; reflexivity.
      * cbv zeta.
        set (w3 := mkWorld _ _ _ _ _ _ _).
        destruct (endConditionReached_frame effect delta w3) as (Hw4 & Hv).
        set (r := endConditionReached effect delta w3) in *.
        assert (He3 : options (heap w3 effect) = options e).
        { unfold w3; simpl. rewrite store_set_same, He2. reflexivity. }
        rewrite He3 in Hw4, Hv. simpl in Hw4, Hv.
        rewrite He2, Hc, Hr. simpl.
        assert (Htr : truthy (fst r) =
          match endCondition (options e) with
          | Some f => strict_equal (f delta (scene w2)) (JBool true)
          | None => false
          end).
        { rewrite Hv. destruct (endCondition (options e)); reflexivity. }
        rewrite Htr.
        destruct (_ || _) eqn:Dropped; simpl.
        -- destruct (CameraEffect_onEnd_frame effect (snd r))
             as (Hh' & Hc' & Hr' & Hl').
           rewrite Hh', Hr', Hl', Hw4. simpl.
           rewrite store_set_same, Hl, He2, Hc, Hr, Hon. simpl.
           rewrite <- !app_assoc. simpl.
           repeat split; reflexivity.
        -- rewrite Hw4. simpl.
           rewrite store_set_same, Hl, He2, Hc, Hr. simpl.
           rewrite <- !app_assoc. simpl. rewrite app_nil_r.
           repeat split; reflexivity.
Qed.

(** ** Time stamps across ticks *)

(** what one visit of [r'] does to the effect object [r]: nothing if
    [r] is another object; for [r] itself only the two time stamps can
    change, the start only from 0 *)
Lemma update_callback_heap delta r' w r :
  let e := heap w r in
  let e' := heap (snd (update_callback delta r' w)) r in
  (r <> r' -> e' = e) /\
  container e' = container e /\ options e' = options e /\
  class e' = class e /\
  startedTimeStamp e' =
    if Nat.eqb r r' && (startedTimeStamp e === n0)
    then clock w (clock_reads w) else startedTimeStamp e.
Proof.
  cbv zeta. rewrite (update_callback_unfold delta r' w). cbv zeta.
  match goal with
  | |- context [CameraEffect_update r' delta ?W] => set (w1 := W)
  end.
  assert (H1 :
    (r <> r' -> heap w1 r = heap w r) /\
    container (heap w1 r) = container (heap w r) /\
    options (heap w1 r) = options (heap w r) /\
    class (heap w1 r) = class (heap w r) /\
    startedTimeStamp (heap w1 r) =
      if Nat.eqb r r' && (startedTimeStamp (heap w r) === n0)
      then clock w (clock_reads w) else startedTimeStamp (heap w r)).
  { unfold w1. destruct (Nat.eqb_spec r r') as [->|Hne]; simpl.
    - destruct (startedTimeStamp (heap w r') === n0); simpl;
        rewrite ?store_set_same; simpl; repeat split; auto; congruence.
    - destruct (startedTimeStamp (heap w r') === n0); simpl;
        rewrite ?store_set_other by assumption; repeat split; auto. }
  destruct (CameraEffect_update_frame r' delta w1) as (Hh & Hc & Hr & Hl).
  set (w2 := snd (CameraEffect_update r' delta w1)) in *.
  clearbody w1 w2.
  destruct H1 as (Ho & Hco & Hop & Hcl & Hst).
  destruct (strict_equal _ (JBool false)).
  - destruct (CameraEffect_onEnd_frame r' w2) as (Hh' & _).
    simpl. rewrite Hh', Hh. repeat split; auto.
  - set (w3 := mkWorld _ _ _ _ _ _ _).
    destruct (endConditionReached_frame r' delta w3) as (Hw4 & _).
    assert (H3 :
      (r <> r' -> heap w3 r = heap w1 r) /\
      container (heap w3 r) = container (heap w1 r) /\
      options (heap w3 r) = options (heap w1 r) /\
      class (heap w3 r) = class (heap w1 r) /\
      startedTimeStamp (heap w3 r) = startedTimeStamp (heap w1 r)).
    { unfold w3; simpl. rewrite Hh.
      destruct (Nat.eqb_spec r r') as [->|Hne].
      - rewrite store_set_same; simpl. repeat split; auto. congruence.
      - rewrite store_set_other by assumption. repeat split; auto. }
    assert (H4 : heap (snd (endConditionReached r' delta w3)) = heap w3)
      by (rewrite Hw4; reflexivity).
    clearbody w3.
    destruct H3 as (Ho3 & Hco3 & Hop3 & Hcl3 & Hst3).
    destruct (_ || _); simpl.
    + destruct (CameraEffect_onEnd_frame r'
                  (snd (endConditionReached r' delta w3))) as (Hh' & _).
      rewrite Hh', H4. repeat split; try congruence.
      intros Hne. rewrite Ho3, Ho; auto.
    + rewrite H4. repeat split; try congruence.
      intros Hne. rewrite Ho3, Ho; auto.
Qed.

(** the oracle itself never changes, and readings are only consumed *)
Lemma update_callback_clock delta r w :
  clock (snd (update_callback delta r w)) = clock w.
Proof.
  rewrite (update_callback_unfold delta r w). cbv zeta.
  match goal with
  | |- context [CameraEffect_update r delta ?W] => set (w1 := W)
  end.
  assert (H1 : clock w1 = clock w)
    by (unfold w1; destruct (_ === _); reflexivity).
  destruct (CameraEffect_update_frame r delta w1) as (Hh & Hc & Hr & Hl).
  set (w2 := snd (CameraEffect_update r delta w1)) in *.
  clearbody w1 w2.
  destruct (strict_equal _ (JBool false)).
  - destruct (CameraEffect_onEnd_frame r w2) as (_ & Hc' & _).
    simpl. congruence.
  - set (w3 := mkWorld _ _ _ _ _ _ _).
    destruct (endConditionReached_frame r delta w3) as (Hw4 & _).
    assert (H4 : clock (snd (endConditionReached r delta w3)) = clock w2)
      by (rewrite Hw4; reflexivity).
    clearbody w3.
    destruct (_ || _); simpl.
    + destruct (CameraEffect_onEnd_frame r
                  (snd (endConditionReached r delta w3))) as (_ & Hc' & _).
      congruence.
    + congruence.
Qed.

Lemma update_callback_started_kept delta r' w r :
  (startedTimeStamp (heap w r) === n0) = false ->
  startedTimeStamp (heap (snd (update_callback delta r' w)) r)
  = startedTimeStamp (heap w r).
Proof.
  intros H.
  destruct (update_callback_heap delta r' w r) as (_ & _ & _ & _ & Hst).
  rewrite Hst, H, andb_false_r. reflexivity.
Qed.

Lemma Array_filter_started_kept delta l : forall w r,
  (startedTimeStamp (heap w r) === n0) = false ->
  startedTimeStamp
    (heap (snd (Array_filter (update_callback delta) l w)) r)
  = startedTimeStamp (heap w r).
Proof.
  induction l as [|e l IH]; intros w r H; simpl; [reflexivity |].
  unfold bind, ret.
  pose proof (update_callback_started_kept delta e w r H) as He.
  destruct (update_callback delta e w) as [keep w']; simpl in He.
  assert (H' : (startedTimeStamp (heap w' r) === n0) = false)
    by (rewrite He; exact H).
  specialize (IH w' r H').
  destruct (Array_filter (update_callback delta) l w') as [rest w''].
  simpl in *. congruence.
Qed.

Lemma Array_filter_untouched delta l : forall w r,
  ~ In r l ->
  heap (snd (Array_filter (update_callback delta) l w)) r = heap w r.
Proof.
  induction l as [|e l IH]; intros w r H; simpl; [reflexivity |].
  unfold bind, ret.
  destruct (update_callback_heap delta e w r) as (Ho & _).
  destruct (update_callback delta e w) as [keep w']; simpl in Ho.
  assert (Hne : r <> e) by (intros ->; apply H; now left).
  assert (Hin : ~ In r l) by (intros Hin; apply H; now right).
  specialize (IH w' r Hin).
  destruct (Array_filter (update_callback delta) l w') as [rest w''].
  simpl in *. rewrite IH. now apply Ho.
Qed.

Lemma Camera_update_heap delta cam w :
  heap (snd (Camera_update delta cam w))
  = heap (snd (Array_filter (update_callback delta) (_effects cam) w)).
Proof.
  unfold Camera_update, bind, ret.
  destruct (Array_filter _ _ w); reflexivity.
Qed.

Lemma Camera_ticks_started_kept deltas : forall cam w r,
  (startedTimeStamp (heap w r) === n0) = false ->
  startedTimeStamp (heap (snd (Camera_ticks deltas cam w)) r)
  = startedTimeStamp (heap w r).
Proof.
  induction deltas as [|d ds IH]; intros cam w r H; simpl; [reflexivity |].
  unfold bind.
  pose proof (Array_filter_started_kept d (_effects cam) w r H) as Hd.
  rewrite <- Camera_update_heap in Hd.
  destruct (Camera_update d cam w) as [c' w']; simpl in Hd.
  rewrite IH by (rewrite Hd; exact H). exact Hd.
Qed.

(** X17. Where the clock does not read 0 on the first visit, the start
    stamp is set once. An effect is constructed with [startedTimeStamp] 0 and
    the ticks that do not visit it leave it so; on the first visit, if
    the clock does not read 0, the stamp becomes that clock reading, and
    no later tick of any camera, whatever the frame deltas, changes it. *)
Theorem startedTimeStamp_set_once delta r w :
  (startedTimeStamp (heap w r) === n0) = true ->
  (clock w (clock_reads w) === n0) = false ->
  let w1 := snd (update_callback delta r w) in
  (forall c o cls, startedTimeStamp (CameraEffect_constructor c o cls) = n0) /\
  (forall d cam w0,
     ~ In r (effects cam) ->
     heap (snd (Camera_update d cam w0)) r = heap w0 r) /\
  startedTimeStamp (heap w1 r) = clock w (clock_reads w) /\
  (forall deltas cam,
     startedTimeStamp (heap (snd (Camera_ticks deltas cam w1)) r)
     = clock w (clock_reads w)).
Proof.
  intros H0 Hclock w1.
  assert (Hst : startedTimeStamp (heap w1 r) = clock w (clock_reads w)).
  { unfold w1.
    destruct (update_callback_heap delta r w r) as (_ & _ & _ & _ & Hst).
    rewrite Hst, H0, Nat.eqb_refl. reflexivity. }
  split; [reflexivity |].
  split.
  { intros d cam w0 Hin. rewrite Camera_update_heap.
    now apply Array_filter_untouched. }
  split; [exact Hst |].
  intros deltas cam. rewrite Camera_ticks_started_kept; [exact Hst |].
  rewrite Hst. exact Hclock.
Qed.

(** C2 fails on the code when the clock reads 0 on the effect's first
    tick: the effect is visited and kept, its start stamp is still 0,
    and the second tick, which is not the first time the effect has run,
    stamps it again, with 16. *)
Lemma startedTimeStamp_restamped :
  let w0 := world_of (scene_of stage) shake_1000 clock_from_zero in
  let tick1 := Camera_update n1 (mkCamera [0%nat]) w0 in
  let tick2 := Camera_update n1 (fst tick1) (snd tick1) in
  calls (snd tick1) = [CallUpdate 0%nat n1] /\
  effects (fst tick1) = [0%nat] /\
  startedTimeStamp (heap (snd tick1) 0%nat) = Fin 0 /\
  startedTimeStamp (heap (snd tick2) 0%nat) = Fin 16 /\
  startedTimeStamp (heap (snd tick2) 0%nat)
  <> startedTimeStamp (heap (snd tick1) 0%nat).
Proof.
  vm_compute. repeat split; discriminate.
Qed.

Lemma startedTimeStamp_set_once_witness :
  let w := world_of (scene_of stage) shake_1000 clock_frames in
  startedTimeStamp (heap (snd (update_callback n1 0%nat w)) 0%nat)
  = clock_frames 0%nat /\
  forall deltas cam,
    startedTimeStamp
      (heap (snd (Camera_ticks deltas cam (snd (update_callback n1 0%nat w))))
            0%nat)
    = clock_frames 0%nat.
Proof.
  intros w.
  destruct (startedTimeStamp_set_once n1 0%nat w eq_refl eq_refl)
    as (_ & _ & H1 & H2).
  split; [exact H1 | exact H2].
Defined.

(** ** PanEffect *)

(** what one [update] of a pan does to the pivot and returns *)
Lemma PanEffect_update_result
  (this : CameraEffect) (_coordinates _difference : Vector2)
  (_xIsGreater _yIsGreater : bool) (w : World) :
  let timeDiffPercentage :=
    (lastRanTimeStamp this - startedTimeStamp this)
    / duration (options this) in
  let timeDiffPercentageNegative :=
    (duration (options this) - lastRanTimeStamp this)
    / duration (options this) in
  let r :=
    PanEffect_update this _coordinates _difference _xIsGreater _yIsGreater
      w in
  let p := pivot (containers (scene (snd r)) (container this)) in
  x p = (if _xIsGreater then x _difference * timeDiffPercentage
         else x _difference * timeDiffPercentageNegative) /\
  y p = (if _yIsGreater then y _difference * timeDiffPercentage
         else y _difference * timeDiffPercentageNegative) /\
  fst r =
    if (x p >? x _coordinates - n5) && (x p <? x _coordinates + n5)
       && (y p >? y _coordinates - n5) && (y p <? y _coordinates + n5)
    then JBool false else JUndefined.
Proof.
  cbv zeta. unfold PanEffect_update. run.
  unfold on_container; simpl. rewrite !store_set_same; simpl.
  match goal with |- context [if ?b then _ else _] => destruct b eqn:E end;
    simpl; rewrite !store_set_same; simpl; rewrite E;
    repeat split; reflexivity.
Qed.

(** C3 fails on the code. A pan from the pivot (100, 100) to (200, 200):
    half-way through the duration [update] sets the pivot to (50, 50),
    where the interpolation from the initial pivot gives (150, 150); at
    the full duration the pivot is (100, 100), not within 5 of the
    target, and [update] does not return [false]. Run by the camera with
    one tick every 500 ms, the effect is never ended by its own [update]:
    it is dropped by the duration on the fifth tick, with the pivot at
    (75, 75). *)
Theorem PanEffect_misses_target_from_nonzero_pivot :
  let target := mkVector2 (Fin 200) (Fin 200) in
  let halfway :=
    CameraEffect_update 0%nat n1
      (world_of (scene_of moved_stage)
         (stamped (Fin 1000) (Fin 2000) pan_far) clock_frames) in
  let full :=
    CameraEffect_update 0%nat n1
      (world_of (scene_of moved_stage)
         (stamped (Fin 1000) (Fin 3000) pan_far) clock_frames) in
  let run :=
    Camera_ticks [n1; n1; n1; n1; n1] (mkCamera [0%nat])
      (world_of (scene_of moved_stage) pan_far (clock_every 500)) in
  Vector2_eq (pivot (containers (scene (snd halfway)) 0%nat))
             (mkVector2 (Fin 50) (Fin 50)) = true /\
  Vector2_eq
    (mkVector2 (lerp (Fin 100) (x target) (Fin (1 # 2)))
               (lerp (Fin 100) (y target) (Fin (1 # 2))))
    (mkVector2 (Fin 150) (Fin 150)) = true /\
  fst halfway = JUndefined /\
  Vector2_eq (pivot (containers (scene (snd full)) 0%nat))
             (mkVector2 (Fin 100) (Fin 100)) = true /\
  fst full = JUndefined /\
  effects (fst run) = [] /\
  calls (snd run) =
    [CallUpdate 0%nat n1; CallUpdate 0%nat n1; CallUpdate 0%nat n1;
     CallUpdate 0%nat n1; CallUpdate 0%nat n1] /\
  Vector2_eq (pivot (containers (scene (snd run)) 0%nat))
             (mkVector2 (Fin 75) (Fin 75)) = true.
Proof.
  vm_compute. repeat split.
Qed.

(** ** RotateEffect *)

(** C4, as stated, fails for a target below the initial angle: rotating a
    container that stands at 90 degrees to 45 degrees, the first tick
    already finds the angle above the target, [update] returns [false]
    and the effect is dropped, with one clock reading taken (no time
    has elapsed of the 2000 ms). *)
Lemma RotateEffect_smaller_target_ends_at_once :
  let w0 := world_of (snd rotate_back) (fst rotate_back) clock_frames in
  let tick1 := Camera_update n1 (mkCamera [0%nat]) w0 in
  class (fst rotate_back)
  = RotateEffect (Fin 45) (Fin 90) (mkVector2 (Fin 100) (Fin 100)) linear /\
  duration (options (fst rotate_back)) = Fin 2000 /\
  effects (fst tick1) = [] /\
  calls (snd tick1) = [CallUpdate 0%nat n1] /\
  clock_reads (snd tick1) = 1%nat /\
  (angle (containers (scene (snd tick1)) 0%nat) >? Fin 45) = true.
Proof.
  vm_compute. repeat split.
Qed.

(** At the target itself the test [angle > target] fails: rotating from
    0 to 45 degrees, the update at the full duration sets the angle to 45
    and does not return [false]. *)
Example RotateEffect_at_exact_target :
  let built := RotateEffect_constructor 0%nat (ms 2000) (Fin 45) None
                 (scene_of stage) in
  let r :=
    CameraEffect_update 0%nat n1
      (world_of (snd built) (stamped (Fin 1000) (Fin 3000) (fst built))
                clock_frames) in
  (angle (containers (scene (snd r)) 0%nat) === Fin 45) = true /\
  fst r = JUndefined.
Proof. vm_compute. repeat split. Qed.

(** C4 (amended). [update] sets the angle to the initial angle plus the
    target times the eased fraction; it returns [false] whenever that
    angle exceeds the target and does not whenever it is below the
    target. For a target smaller than the initial angle, an update whose
    angle amount is not negative (the eased fraction 0, for one) finds the
    angle above the target and returns [false]: the effect ends itself
    there. *)
Theorem RotateEffect_update_ends
  (this : CameraEffect) (_angle _initialAngle : number)
  (_easingFn : EasingFn) (w : World) :
  let amount :=
    _angle * _easingFn ((lastRanTimeStamp this - startedTimeStamp this)
                        / duration (options this)) in
  let r := RotateEffect_update this _angle _initialAngle _easingFn w in
  let after := angle (containers (scene (snd r)) (container this)) in
  after = _initialAngle + amount /\
  ((after >? _angle) = true -> fst r = JBool false) /\
  ((after <? _angle) = true -> fst r = JUndefined) /\
  ((_angle <? _initialAngle) = true -> (n0 <=? amount) = true ->
   fst r = JBool false).
Proof.
  cbv zeta. unfold RotateEffect_update. run.
  unfold on_container; simpl. rewrite store_set_same; simpl.
  set (after := _initialAngle + _).
  pose proof (num_add_exceeds _angle _initialAngle
                (_angle * _easingFn
                   ((lastRanTimeStamp this - startedTimeStamp this)
                    / duration (options this)))) as Hex.
  fold after in Hex.
  destruct (after >? _angle) eqn:G; simpl; rewrite store_set_same; simpl.
  - repeat split; auto.
    intros H. apply num_lt_not_gt in H. congruence.
  - repeat split; auto; try congruence.
    intros H1 H2. specialize (Hex H1 H2). congruence.
Qed.

Lemma RotateEffect_update_ends_witness :
  fst (RotateEffect_update (stamped (Fin 16) (Fin 16) (fst rotate_back))
         (Fin 45) (Fin 90) linear
         (world_of (snd rotate_back) (fst rotate_back) clock_frames))
  = JBool false.
Proof.
  apply (RotateEffect_update_ends
           (stamped (Fin 16) (Fin 16) (fst rotate_back))
           (Fin 45) (Fin 90) linear
           (world_of (snd rotate_back) (fst rotate_back) clock_frames));
    reflexivity.
Defined.

(** ** FadeEffect *)








(** what one [update] of a fade does to the overlay and returns *)
Lemma FadeEffect_update_result
  (this : CameraEffect) (_filter : ref) (_opacity : number) (fn : EasingFn)
  (fo : bool) (io : number) (w : World) :
  let fadeAmount :=
    n1 * fn ((lastRanTimeStamp this - startedTimeStamp this)
             / duration (options this)) in
  let a := if fo then fadeAmount else io - fadeAmount in
  let r := FadeEffect_update this _filter _opacity fn fo io w in
  alpha (sprites (scene (snd r)) _filter) = a /\
  fst r =
    if (fo && (a >=? _opacity - n0_01))
       || (negb fo && (a <=? _opacity + n0_01))
    then JBool false else JUndefined.
Proof.
  cbv zeta. unfold FadeEffect_update. run.
  unfold on_sprite; simpl. rewrite !store_set_same; simpl.
  match goal with |- context [if ?b then _ else _] => destruct b end;
    simpl; rewrite store_set_same; split; reflexivity.
Qed.



(** ** ZoomEffect *)

(** C6. The constructor records the scale as the initial zoom level and,
    per axis, whether the target level exceeds it. Each update sets the
    scale, on an axis where it does, to the initial level plus half of
    the target level times the eased fraction, and on an axis where it
    does not, to the initial level minus the target level times the
    eased fraction, not halved. [update] returns [false] when both axes
    of the scale are within 0.01 of the target levels, and nothing
    otherwise. *)
Theorem ZoomEffect_zooms
  (container : ref) (arg : option OptionsArg) (zoomLevel : Vector2)
  (easingFn : option EasingFn) (s : Scene)
  (started lastRan : number) (w : World) :
  let built := ZoomEffect_constructor container arg zoomLevel easingFn s in
  let fn := match easingFn with Some f => f | None => linear end in
  let this := stamped started lastRan (fst built) in
  let initial :=
    mkVector2 (x (scale (containers s container)))
              (y (scale (containers s container))) in
  let xIsGreater := x zoomLevel >? x initial in
  let yIsGreater := y zoomLevel >? y initial in
  let easedFraction :=
    fn ((lastRan - started) / duration (options this)) in
  let r := ZoomEffect_update this zoomLevel fn initial
             xIsGreater yIsGreater w in
  let sc := scale (containers (scene (snd r)) container) in
  class (fst built)
  = ZoomEffect zoomLevel fn initial xIsGreater yIsGreater /\
  snd built = s /\
  x sc = (if xIsGreater
          then x initial + (x zoomLevel * easedFraction) / n2
          else x initial - x zoomLevel * easedFraction) /\
  y sc = (if yIsGreater
          then y initial + (y zoomLevel * easedFraction) / n2
          else y initial - y zoomLevel * easedFraction) /\
  fst r =
    if (x sc >? x zoomLevel - n0_01) && (x sc <? x zoomLevel + n0_01)
       && (y sc >? y zoomLevel - n0_01) && (y sc <? y zoomLevel + n0_01)
    then JBool false else JUndefined.
Proof.
  cbv zeta.
  split; [reflexivity |]. split; [reflexivity |].
  unfold ZoomEffect_update. run.
  unfold on_container; simpl. rewrite !store_set_same; simpl.
  match goal with |- context [if ?b then _ else _] => destruct b eqn:E end;
    simpl; rewrite !store_set_same; simpl; rewrite E;
    repeat split; reflexivity.
Qed.

(** ** ShakeEffect *)

Lemma ShakeEffect_update_continues effect delta w intensity ipv :
  class (heap w effect) = ShakeEffect intensity ipv ->
  fst (CameraEffect_update effect delta w) = JUndefined.
Proof.
  intros C. unfold CameraEffect_update. run. rewrite C. reflexivity.
Qed.

Lemma ShakeEffect_onEnd_pivot effect w intensity ipv :
  class (heap w effect) = ShakeEffect intensity ipv ->
  let w' := snd (CameraEffect_onEnd effect w) in
  pivot (containers (scene w') (container (heap w effect)))
  = mkVector2 (x ipv) (y ipv) /\
  calls w' = calls w ++ [CallOnEnd effect].
Proof.
  intros C. unfold CameraEffect_onEnd. run. rewrite C.
  unfold ShakeEffect_onEnd. run. unfold on_container; simpl.
  rewrite !store_set_same. split; reflexivity.
Qed.

(** C7. A shake captures the container's pivot when it is constructed.
    Whenever the camera drops the effect in a tick ([update] of a shake
    never ends it, so this is by duration or end condition), the last
    call of that visit is the effect's [onEnd] and the container's pivot
    is then exactly the captured one, whatever the intensity, the
    readings of [Math.random()] and the world the tick started in. *)
Theorem ShakeEffect_restores_pivot
  (c : ref) (arg : option OptionsArg) (intensity : number) (s0 : Scene)
  (effect : ref) (delta : number) (w : World) :
  let built := fst (ShakeEffect_constructor c arg intensity s0) in
  class (heap w effect) = class built ->
  container (heap w effect) = c ->
  fst (update_callback delta effect w) = false ->
  let w' := snd (update_callback delta effect w) in
  pivot (containers (scene w') c) = pivot (containers s0 c) /\
  exists before, calls w' = before ++ [CallOnEnd effect].
Proof.
  cbv zeta. intros C Hc.
  unfold ShakeEffect_constructor, CameraEffect_constructor in C; simpl in C.
  rewrite (update_callback_unfold delta effect w). cbv zeta.
  match goal with
  | |- context [CameraEffect_update effect delta ?W] => set (w1 := W)
  end.
  assert (H1 : class (heap w1 effect) = class (heap w effect) /\
               container (heap w1 effect) = container (heap w effect)).
  { unfold w1. destruct (_ === _); simpl; rewrite ?store_set_same; auto. }
  destruct H1 as (C1 & Hc1). rewrite C in C1.
  rewrite (ShakeEffect_update_continues effect delta w1 _ _ C1).
  destruct (CameraEffect_update_frame effect delta w1) as (Hh & _).
  set (w2 := snd (CameraEffect_update effect delta w1)) in *.
  clearbody w1 w2.
  change (strict_equal JUndefined (JBool false)) with false. cbv iota.
  set (w3 := mkWorld _ _ _ _ _ _ _).
  destruct (endConditionReached_frame effect delta w3) as (Hw4 & _).
  set (w4 := snd (endConditionReached effect delta w3)) in *.
  assert (H4 : class (heap w4 effect) = class (heap w1 effect) /\
               container (heap w4 effect) = container (heap w1 effect)).
  { rewrite Hw4. unfold w3; simpl. rewrite store_set_same, Hh; auto. }
  clearbody w3 w4. destruct H4 as (C4 & Hc4). rewrite C1 in C4.
  destruct (_ || _); simpl; [| discriminate].
  intros _.
  destruct (ShakeEffect_onEnd_pivot effect w4 _ _ C4) as (Hp & Hl).
  rewrite Hc4, Hc1, Hc in Hp. simpl in Hp.
  split.
  - rewrite Hp. destruct (pivot (containers s0 c)); reflexivity.
  - exists (calls w4). exact Hl.
Qed.

Lemma ShakeEffect_restores_pivot_witness :
  let w0 := world_of (scene_of moved_stage) shake_moved (clock_every 500) in
  let w := snd (Camera_ticks [n1; n1] (mkCamera [0%nat]) w0) in
  pivot (containers (scene w) 0%nat) <> pivot moved_stage /\
  pivot (containers (scene (snd (update_callback n1 0%nat w))) 0%nat)
  = pivot moved_stage.
Proof.
  intros w0 w. split; [vm_compute; discriminate |].
  apply (ShakeEffect_restores_pivot 0%nat (ms 1000) n5
           (scene_of moved_stage) 0%nat n1 w);
    vm_compute; reflexivity.
Defined.

(** ** Options: the duration *)

(** C8. A constructor given no options object, or one without a
    duration, leaves [options.duration] at 0, for the base class and so
    for each of the five effects. For an effect whose duration is
    [Infinity], with a clock of finite readings and a finite start
    stamp, the elapsed time is never [>=] the duration: the effect is
    kept unless its own [update] returned [false] or its end condition
    returned [true]. *)
Theorem duration_absent_or_infinite
  (effect : ref) (delta : number) (w : World) :
  duration (options (heap w effect)) = Infinity ->
  (forall k, isFinite (clock w k) = true) ->
  isFinite (startedTimeStamp (heap w effect)) = true ->
  let w1 := snd (stamp_first_run effect w) in
  let continueEffect := fst (CameraEffect_update effect delta w1) in
  let w2 := snd (CameraEffect_update effect delta w1) in
  (forall c arg cls,
     duration_absent arg = true ->
     duration (options (CameraEffect_constructor c arg cls)) = n0) /\
  (forall c arg s intensity location zoomLevel angle_arg filter color
          opacity easingFn,
     duration_absent arg = true ->
     duration (options (fst (ShakeEffect_constructor c arg intensity s)))
     = n0 /\
     duration (options (fst (PanEffect_constructor c arg location s)))
     = n0 /\
     duration
       (options (fst (ZoomEffect_constructor c arg zoomLevel easingFn s)))
     = n0 /\
     duration
       (options (fst (RotateEffect_constructor c arg angle_arg easingFn s)))
     = n0 /\
     duration
       (options
          (fst (FadeEffect_constructor c arg filter color opacity
                                       easingFn s)))
     = n0) /\
  (forall k,
     (clock w k - startedTimeStamp (heap w2 effect)
      >=? duration (options (heap w2 effect))) = false) /\
  isFinite
    (startedTimeStamp (heap (snd (update_callback delta effect w)) effect))
  = true /\
  fst (update_callback delta effect w) =
    negb (strict_equal continueEffect (JBool false))
    && negb match endCondition (options (heap w effect)) with
            | Some f => strict_equal (f delta (scene w2)) (JBool true)
            | None => false
            end.
Proof.
  intros Hinf Hclock Hstart. cbv zeta.
  assert (Hab : forall c arg cls,
    duration_absent arg = true ->
    duration (options (CameraEffect_constructor c arg cls)) = n0).
  { intros c [o|] cls; simpl; [| reflexivity].
    destruct (arg_duration o); [discriminate | reflexivity]. }
  split; [exact Hab |].
  split.
  { intros. repeat split; apply Hab; assumption. }
  assert (Hfin : isFinite
    (startedTimeStamp (heap (snd (update_callback delta effect w)) effect))
    = true).
  { destruct (update_callback_heap delta effect w effect)
      as (_ & _ & _ & _ & Hst).
    rewrite Hst. destruct (_ && _); [apply Hclock | exact Hstart]. }
  rewrite (update_callback_unfold delta effect w) in *. cbv zeta.
  rewrite (stamp_first_run_world effect w). cbv zeta.
  match goal with
  | |- context [CameraEffect_update effect delta ?W] => set (w1 := W)
  end.
  assert (H1 :
    options (heap w1 effect) = options (heap w effect) /\
    isFinite (startedTimeStamp (heap w1 effect)) = true /\
    clock w1 = clock w).
  { unfold w1. destruct (_ === _); simpl; rewrite ?store_set_same; simpl;
      auto. }
  destruct H1 as (Ho1 & Hs1 & Hc1).
  destruct (CameraEffect_update_frame effect delta w1) as (Hh & Hc & _).
  set (w2 := snd (CameraEffect_update effect delta w1)) in *.
  assert (Hdur : forall k,
    (clock w k - startedTimeStamp (heap w2 effect)
     >=? duration (options (heap w2 effect))) = false).
  { intros k. rewrite Hh, Ho1, Hinf. apply num_ge_Infinity.
    apply num_sub_finite; [apply Hclock | exact Hs1]. }
  split; [exact Hdur |].
  split; [exact Hfin |]. clear Hfin.
  destruct (strict_equal _ (JBool false)); simpl; [reflexivity |].
  rewrite Hc, Hc1, Hdur. simpl.
  set (w3 := mkWorld _ _ _ _ _ _ _).
  destruct (endConditionReached_frame effect delta w3) as (_ & Hv).
  assert (Ho3 : options (heap w3 effect) = options (heap w effect)).
  { unfold w3; simpl. rewrite store_set_same; simpl. now rewrite Hh. }
  rewrite Hv, Ho3.
  destruct (endCondition (options (heap w effect))) as [f|]; simpl.
  - unfold w3 at 1; simpl.
    destruct (strict_equal (f delta (scene w2)) (JBool true)); reflexivity.
  - reflexivity.
Qed.

Lemma duration_absent_or_infinite_witness :
  let w := world_of (scene_of stage) shake_forever (clock_every 1000000) in
  fst (update_callback n1 0%nat w) = true /\
  effects (fst (Camera_ticks [n1; n1; n1; n1] (mkCamera [0%nat]) w))
  = [0%nat].
Proof.
  intros w. split; [| vm_compute; reflexivity].
  destruct (duration_absent_or_infinite 0%nat n1 w)
    as (_ & _ & _ & _ & H);
    [reflexivity | intros k; reflexivity | reflexivity |].
  rewrite H. vm_compute. reflexivity.
Defined.

(** ** The end condition *)

Lemma strict_equal_true v :
  strict_equal v (JBool true) = true <-> v = JBool true.
Proof.
  split; [| intros ->; reflexivity].
  destruct v as [| |b| | |]; simpl; try discriminate.
  destruct b; [reflexivity | discriminate].
Qed.

(** C9. In a tick where the effect's [update] did not return [false] and
    the elapsed time is below the duration, the effect is dropped exactly
    when it has an end condition and that returned the boolean [true];
    any other value returned, truthy or not, leaves it in the
    collection. *)
Theorem endCondition_strictly_true
  (effect : ref) (delta : number) (w : World) :
  let w1 := snd (stamp_first_run effect w) in
  let continueEffect := fst (CameraEffect_update effect delta w1) in
  let w2 := snd (CameraEffect_update effect delta w1) in
  let e := heap w2 effect in
  let elapsed := clock w2 (S (clock_reads w2)) - startedTimeStamp e in
  strict_equal continueEffect (JBool false) = false ->
  (elapsed <? duration (options e)) = true ->
  (fst (update_callback delta effect w) = false <->
   exists f, endCondition (options e) = Some f /\
             f delta (scene w2) = JBool true) /\
  (forall f, endCondition (options e) = Some f ->
             f delta (scene w2) <> JBool true ->
             fst (update_callback delta effect w) = true).
Proof.
  cbv zeta. intros Hcont Hbelow.
  rewrite (update_callback_unfold delta effect w). cbv zeta.
  rewrite (stamp_first_run_world effect w) in *. cbv zeta in *.
  match goal with
  | |- context [CameraEffect_update effect delta ?W] => set (w1 := W) in *
  end.
  set (w2 := snd (CameraEffect_update effect delta w1)) in *.
  rewrite Hcont. apply num_lt_not_ge in Hbelow. rewrite Hbelow. simpl.
  set (w3 := mkWorld _ _ _ _ _ _ _).
  destruct (endConditionReached_frame effect delta w3) as (_ & Hv).
  assert (Ho3 : options (heap w3 effect) = options (heap w2 effect)).
  { unfold w3; simpl. rewrite store_set_same. reflexivity. }
  rewrite Hv, Ho3. change (scene w3) with (scene w2).
  destruct (endCondition (options (heap w2 effect))) as [g|]; simpl.
  - destruct (strict_equal (g delta (scene w2)) (JBool true)) eqn:E.
    + apply strict_equal_true in E. split.
      * split; [intros _; exists g; auto | reflexivity].
      * intros f Hf Hne. injection Hf as <-. contradiction.
    + split.
      * split; [discriminate |].
        intros (f & Hf & Ht). injection Hf as <-.
        apply strict_equal_true in Ht. congruence.
      * reflexivity.
  - split.
    + split; [discriminate | intros (f & Hf & _); discriminate].
    + discriminate.
Qed.

Lemma endCondition_strictly_true_witness :
  fst (update_callback n1 0%nat
         (world_of (scene_of stage) (shake_until (JNumber n1))
                   clock_frames)) = true /\
  fst (update_callback n1 0%nat
         (world_of (scene_of stage) (shake_until (JString "yes"))
                   clock_frames)) = true /\
  fst (update_callback n1 0%nat
         (world_of (scene_of stage) (shake_until (JBool true))
                   clock_frames)) = false.
Proof.
  split; [| split].
  - apply (endCondition_strictly_true 0%nat n1
             (world_of (scene_of stage) (shake_until (JNumber n1))
                       clock_frames))
      with (f := fun _ _ => JNumber n1);
      try reflexivity; discriminate.
  - apply (endCondition_strictly_true 0%nat n1
             (world_of (scene_of stage) (shake_until (JString "yes"))
                       clock_frames))
      with (f := fun _ _ => JString "yes");
      try reflexivity; discriminate.
  - apply (endCondition_strictly_true 0%nat n1
             (world_of (scene_of stage) (shake_until (JBool true))
                       clock_frames));
      try reflexivity.
    exists (fun _ _ => JBool true). split; reflexivity.
Defined.

(** ** Removing an effect by hand *)

Lemma filter_subsequence {A} (p : A -> bool) (l : list A) :
  subsequence (List.filter p l) l.
Proof.
  induction l as [|a l IH]; simpl; [constructor |].
  destruct (p a); now constructor.
Qed.

Lemma filter_others_count (effect : ref) (l : list ref) (e : ref) :
  e <> effect ->
  count_occ Nat.eq_dec
    (List.filter (fun e' => negb (Nat.eqb e' effect)) l) e
  = count_occ Nat.eq_dec l e.
Proof.
  intros Hne. induction l as [|a l IH]; simpl; [reflexivity |].
  destruct (Nat.eqb_spec a effect) as [->|Ha]; simpl.
  - destruct (Nat.eq_dec effect e); [congruence | exact IH].
  - destruct (Nat.eq_dec a e); simpl; now rewrite IH.
Qed.

(** C10. [removeEffect] leaves no entry that is the given effect, keeps
    every other entry, as often as it occurred and in the same order,
    and changes nothing but the camera's array: no call is made on any
    effect (so no [onEnd]), the scene and the effect objects are as
    before. If the effect is not in the collection, the collection is
    unchanged. *)
Theorem removeEffect_only_filters
  (effect : ref) (this : Camera) (w : World) :
  let r := removeEffect effect this w in
  snd r = w /\
  ~ In effect (effects (fst r)) /\
  (forall e, e <> effect ->
     count_occ Nat.eq_dec (effects (fst r)) e
     = count_occ Nat.eq_dec (effects this) e) /\
  subsequence (effects (fst r)) (effects this) /\
  (~ In effect (effects this) -> fst r = this).
Proof.
  cbv zeta. unfold removeEffect, ret, effects; simpl.
  split; [reflexivity |].
  split.
  { intros Hin. apply filter_In in Hin. destruct Hin as (_ & H).
    rewrite Nat.eqb_refl in H. discriminate. }
  split; [intros e He; now apply filter_others_count |].
  split; [apply filter_subsequence |].
  intros Hnot. destruct this as [l]; simpl in *. f_equal.
  induction l as [|a l IH]; simpl; [reflexivity |].
  destruct (Nat.eqb_spec a effect) as [->|Ha]; simpl.
  - exfalso. apply Hnot. now left.
  - f_equal. apply IH. intros Hin. apply Hnot. now right.
Qed.

Lemma removeEffect_only_filters_witness :
  let w := world_of (scene_of stage) shake_1000 clock_frames in
  fst (removeEffect 7%nat (mkCamera [1; 2; 3]%nat) w)
  = mkCamera [1; 2; 3]%nat /\
  effects (fst (removeEffect 2%nat (mkCamera [1; 2; 3; 2; 4]%nat) w))
  = [1; 3; 4]%nat /\
  calls (snd (removeEffect 2%nat (mkCamera [1; 2; 3; 2; 4]%nat) w)) = [].
Proof.
  intros w. split; [| split; reflexivity].
  apply (removeEffect_only_filters 7%nat (mkCamera [1; 2; 3]%nat) w).
  simpl. intuition discriminate.
Defined.

(** ** The scenarios of the test suite, one tick every 500 ms or 16 ms *)

(** "creating the camera with no effects" *)
Example scenario_new_camera : effects Camera_new = [].
Proof. reflexivity. Qed.

(** "should set the started and last ran timestamps": after 2 s of a 10 s
    shake the start stamp is positive and the last run is at 2000 *)
Example scenario_timestamps :
  let e := fst (ShakeEffect_constructor 0%nat (ms 10000) n5
                  (scene_of stage)) in
  let run :=
    Camera_ticks [n1; n1; n1; n1] (mkCamera [0%nat])
      (world_of (scene_of stage) e (clock_every 500)) in
  effects (fst run) = [0%nat] /\
  (startedTimeStamp (heap (snd run) 0%nat) >? n0) = true /\
  (lastRanTimeStamp (heap (snd run) 0%nat) === Fin 2000) = true.
Proof. vm_compute. repeat split. Qed.

(** "should remove the effect after its duration has been reached" and
    "should reset the pivot of the container when the shake effect ends" *)
Example scenario_shake_duration :
  let e := fst (ShakeEffect_constructor 0%nat (ms 2000) n5
                  (scene_of stage)) in
  let run :=
    Camera_ticks [n1; n1; n1; n1; n1; n1] (mkCamera [0%nat])
      (world_of (scene_of stage) e (clock_every 500)) in
  effects (fst run) = [] /\
  pivot (containers (scene (snd run)) 0%nat) = origin /\
  calls (snd run) =
    [CallUpdate 0%nat n1; CallUpdate 0%nat n1; CallUpdate 0%nat n1;
     CallUpdate 0%nat n1; CallUpdate 0%nat n1; CallOnEnd 0%nat].
Proof. vm_compute. repeat split. Qed.

(** "should pan the camera to the specified location": from the pivot
    (0, 0) to (50, 150) in 2 s, at 16 ms a frame; the effect ends itself
    on the 123rd tick, the pivot beyond (45, 145) *)
Example scenario_pan_from_origin :
  let e := fst (PanEffect_constructor 0%nat (ms 2000)
                  (mkVector2 (Fin 50) (Fin 150)) (scene_of stage)) in
  let run :=
    Camera_ticks (List.repeat n1 130) (mkCamera [0%nat])
      (world_of (scene_of stage) e clock_frames) in
  effects (fst run) = [] /\
  List.length (calls (snd run)) = 123%nat /\
  (x (pivot (containers (scene (snd run)) 0%nat)) >? Fin 45) = true /\
  (y (pivot (containers (scene (snd run)) 0%nat)) >? Fin 145) = true.
Proof. vm_compute. repeat split. Qed.

(** "should zoom in on the specified location": from scale 1 to (2, 2) *)
Example scenario_zoom :
  let e := fst (ZoomEffect_constructor 0%nat (ms 2000)
                  (mkVector2 n2 n2) None (scene_of stage)) in
  let run :=
    Camera_ticks (List.repeat n1 130) (mkCamera [0%nat])
      (world_of (scene_of stage) e clock_frames) in
  effects (fst run) = [] /\
  (x (scale (containers (scene (snd run)) 0%nat)) >? Fin (19 # 10)) = true /\
  (y (scale (containers (scene (snd run)) 0%nat)) <? Fin (21 # 10)) = true.
Proof. vm_compute. repeat split. Qed.

(** "should rotate the camera by 45 degrees" *)
Example scenario_rotate :
  let built := RotateEffect_constructor 0%nat (ms 2000) (Fin 45) None
                 (scene_of stage) in
  let run :=
    Camera_ticks (List.repeat n1 130) (mkCamera [0%nat])
      (world_of (snd built) (fst built) clock_frames) in
  effects (fst run) = [] /\
  (angle (containers (scene (snd run)) 0%nat) >? Fin 40) = true /\
  (angle (containers (scene (snd run)) 0%nat) <? Fin 50) = true.
Proof. vm_compute. repeat split. Qed.

(** "should fade the camera to black": past 0.4 after 1 s, past 0.9 at
    the end, the tint black at both times *)
Example scenario_fade :
  let built := fade_black None in
  let w0 := world_of (snd built) (fst built) clock_frames in
  let mid := Camera_ticks (List.repeat n1 62) (mkCamera [0%nat]) w0 in
  let run := Camera_ticks (List.repeat n1 125) (fst mid) (snd mid) in
  (alpha (sprites (scene (snd mid)) 0%nat) >? Fin (4 # 10)) = true /\
  tint (sprites (scene (snd mid)) 0%nat) = Fin 0 /\
  (alpha (sprites (scene (snd run)) 0%nat) >? Fin (9 # 10)) = true /\
  tint (sprites (scene (snd run)) 0%nat) = Fin 0.
Proof. vm_compute. repeat split. Qed.

(** On the first tick of an effect [update] runs while
    [lastRanTimeStamp] is still 0: with the clock at 5000 ms a linear
    fade of 2 s sees the fraction -5000 / 2000 and sets the opacity to
    -2.5. *)
Example first_update_precedes_lastRan :
  let built := fade_black None in
  let w0 := world_of (snd built) (fst built) (clock_every 5000) in
  let tick1 := Camera_update n1 (mkCamera [0%nat]) w0 in
  effects (fst tick1) = [0%nat] /\
  (alpha (sprites (scene (snd tick1)) 0%nat) === Fin (- 5 # 2)) = true.
Proof. vm_compute. repeat split. Qed.

(** "should remove the effect when its end condition has been reached":
    the condition [i === 100] holds in the 101st frame, at 1616 ms of the
    10 s, and the effect is dropped there, after its [onEnd] *)
Example scenario_end_condition :
  let w0 := world_of (scene_of stage) shake_until_100 clock_frames in
  let before := frames_counting 100 (mkCamera [0%nat]) w0 in
  let run := frames_counting 1 (fst before) (snd before) in
  effects (fst before) = [0%nat] /\
  effects (fst run) = [] /\
  (lastRanTimeStamp (heap (snd run) 0%nat) === Fin 1616) = true /\
  List.length (calls (snd run)) = 203%nat /\
  List.skipn 200 (calls (snd run)) =
    [CallUpdate 0%nat n1; CallEndCondition 0%nat n1; CallOnEnd 0%nat].
Proof. vm_compute. repeat split. Qed.

(** * Further properties of the camera and the effects *)

(** ** The collection: adding and removing by hand *)

Lemma filter_out_app (effect : ref) (l l' : list ref) :
  List.filter (fun e => negb (Nat.eqb e effect)) (l ++ l')
  = List.filter (fun e => negb (Nat.eqb e effect)) l
    ++ List.filter (fun e => negb (Nat.eqb e effect)) l'.
Proof. apply filter_app. Qed.

Lemma filter_out_absent (effect : ref) (l : list ref) :
  ~ In effect l ->
  List.filter (fun e => negb (Nat.eqb e effect)) l = l.
Proof.
  induction l as [|a l IH]; simpl; intros H; [reflexivity |].
  destruct (Nat.eqb_spec a effect) as [->|Ha]; simpl.
  - exfalso. apply H. now left.
  - f_equal. apply IH. intros Hin. apply H. now right.
Qed.

(** X1. [addEffect] puts the effect at the end of the collection and
    touches nothing else, also when the effect is in the collection
    already (it is then listed twice). Removing an effect right after
    adding it gives what removing it from the old collection gives: every
    earlier entry of that effect goes as well. If the effect was not in
    the collection, add then remove gives the old camera back. *)
Theorem addEffect_then_removeEffect
  (effect : ref) (this : Camera) (w : World) :
  let added := addEffect effect this w in
  effects (fst added) = effects this ++ [effect] /\
  snd added = w /\
  count_occ Nat.eq_dec (effects (fst added)) effect
  = S (count_occ Nat.eq_dec (effects this) effect) /\
  fst (removeEffect effect (fst added) (snd added))
  = fst (removeEffect effect this w) /\
  (~ In effect (effects this) ->
   fst (removeEffect effect (fst added) (snd added)) = this).
Proof.
  cbv zeta. unfold addEffect, removeEffect, ret, effects; simpl.
  split; [reflexivity |]. split; [reflexivity |].
  split.
  { rewrite count_occ_app; simpl.
    destruct (Nat.eq_dec effect effect); [apply Nat.add_1_r | contradiction]. }
  assert (E : List.filter (fun e => negb (Nat.eqb e effect))
                (_effects this ++ [effect])
              = List.filter (fun e => negb (Nat.eqb e effect)) (_effects this)).
  { rewrite filter_out_app; simpl. rewrite Nat.eqb_refl; simpl.
    apply app_nil_r. }
  rewrite E. split; [reflexivity |].
  intros H. rewrite (filter_out_absent _ _ H). destruct this; reflexivity.
Qed.

Lemma addEffect_then_removeEffect_witness :
  let w := world_of (scene_of stage) shake_1000 clock_frames in
  fst (removeEffect 7%nat
         (fst (addEffect 7%nat (mkCamera [1; 2; 3]%nat) w)) w)
  = mkCamera [1; 2; 3]%nat.
Proof.
  intros w.
  apply (addEffect_then_removeEffect 7%nat (mkCamera [1; 2; 3]%nat) w).
  simpl. intuition discriminate.
Defined.

(** X2. Removing is idempotent and the order of two removals does not
    matter. *)
Theorem removeEffect_idempotent_commutes
  (a b : ref) (this : Camera) (w : World) :
  let rm e c := fst (removeEffect e c w) in
  rm a (rm a this) = rm a this /\
  rm a (rm b this) = rm b (rm a this).
Proof.
  cbv zeta. unfold removeEffect, ret; simpl. split; f_equal.
  - induction (_effects this) as [|e l IH]; simpl; [reflexivity |].
    destruct (negb (Nat.eqb e a)) eqn:E; simpl; rewrite ?E; simpl;
      now rewrite IH.
  - induction (_effects this) as [|e l IH]; simpl; [reflexivity |].
    destruct (negb (Nat.eqb e a)) eqn:Ea, (negb (Nat.eqb e b)) eqn:Eb;
      simpl; rewrite ?Ea, ?Eb; simpl; now rewrite IH.
Qed.

(** ** A tick only drops *)

Lemma subsequence_refl {A} (l : list A) : subsequence l l.
Proof. induction l; now constructor. Qed.

Lemma subsequence_trans {A} (l1 l2 l3 : list A) :
  subsequence l1 l2 -> subsequence l2 l3 -> subsequence l1 l3.
Proof.
  intros H12 H23. revert l1 H12.
  induction H23 as [|a l2 l3 H IH|a l2 l3 H IH]; intros l1 H12.
  - exact H12.
  - constructor. now apply IH.
  - inversion H12; subst.
    + apply subsequence_skip. now apply IH.
    + apply subsequence_keep. now apply IH.
Qed.

Lemma subsequence_length {A} (l l' : list A) :
  subsequence l l' -> (List.length l <= List.length l')%nat.
Proof. induction 1; simpl; lia. Qed.

Lemma subsequence_In {A} (l l' : list A) (a : A) :
  subsequence l l' -> In a l -> In a l'.
Proof.
  induction 1; simpl; intros Hin; auto.
  destruct Hin; auto.
Qed.

Lemma Array_filter_subsequence (f : ref -> M bool) (l : list ref) :
  forall w, subsequence (fst (Array_filter f l w)) l.
Proof.
  induction l as [|e l IH]; intros w; simpl; [constructor |].
  unfold bind, ret. destruct (f e w) as [keep w'].
  specialize (IH w'). destruct (Array_filter f l w') as [rest w''].
  simpl in *. destruct keep; now constructor.
Qed.

(** X3. However many frames run, the collection after them is the
    collection before with some entries left out: [update] never adds an
    effect, never brings a dropped one back and never reorders the ones
    it keeps. *)
Theorem Camera_ticks_only_drop
  (deltas : list number) (this : Camera) (w : World) :
  let after := effects (fst (Camera_ticks deltas this w)) in
  subsequence after (effects this) /\
  (List.length after <= List.length (effects this))%nat /\
  (forall e, In e after -> In e (effects this)).
Proof.
  cbv zeta.
  assert (H : subsequence (effects (fst (Camera_ticks deltas this w)))
                          (effects this)).
  { revert this w. induction deltas as [|d ds IH]; intros this w; simpl.
    - apply subsequence_refl.
    - unfold bind.
      pose proof (Array_filter_subsequence (update_callback d)
                    (_effects this) w) as Hd.
      unfold Camera_update, bind, ret.
      destruct (Array_filter (update_callback d) (_effects this) w)
        as [l w'].
      simpl in Hd. eapply subsequence_trans; [apply IH | exact Hd]. }
  split; [exact H |].
  split; [now apply subsequence_length |].
  intros e. now apply subsequence_In.
Qed.

(** ** The calls of a tick *)

Lemma updates_of_app r l l' :
  updates_of r (l ++ l') = (updates_of r l + updates_of r l')%nat.
Proof. unfold updates_of. now rewrite filter_app, length_app. Qed.

Lemma onEnds_of_app r l l' :
  onEnds_of r (l ++ l') = (onEnds_of r l + onEnds_of r l')%nat.
Proof. unfold onEnds_of. now rewrite filter_app, length_app. Qed.

(** the calls of one visit: [update], then maybe the end condition, then
    [onEnd] if the effect is dropped and its class has one *)
Lemma update_callback_calls delta effect w :
  let r := update_callback delta effect w in
  exists ec,
    (ec = [] \/ ec = [CallEndCondition effect delta]) /\
    calls (snd r) =
      calls w ++ [CallUpdate effect delta] ++ ec
              ++ (if negb (fst r) && has_onEnd (heap w effect)
                  then [CallOnEnd effect] else []).
Proof.
  cbv zeta. rewrite (update_callback_unfold delta effect w). cbv zeta.
  match goal with
  | |- context [CameraEffect_update effect delta ?W] => set (w1 := W)
  end.
  assert (H1 : calls w1 = calls w /\
               has_onEnd (heap w1 effect) = has_onEnd (heap w effect)).
  { unfold w1. destruct (_ === _); simpl; rewrite ?store_set_same; auto. }
  destruct H1 as (Hl1 & Ho1).
  destruct (CameraEffect_update_frame effect delta w1) as (Hh & _ & _ & Hl).
  set (w2 := snd (CameraEffect_update effect delta w1)) in *.
  assert (Ho2 : has_onEnd (heap w2 effect) = has_onEnd (heap w effect))
    by (rewrite Hh; exact Ho1).
  clearbody w1 w2.
  destruct (strict_equal _ (JBool false)); simpl.
  - destruct (CameraEffect_onEnd_frame effect w2) as (_ & _ & _ & Hl').
    exists []. split; [now left |].
    rewrite Hl', Hl, Hl1, Ho2, <- app_assoc. reflexivity.
  - set (w3 := mkWorld _ _ _ _ _ _ _).
    destruct (endConditionReached_frame effect delta w3) as (Hw4 & _).
    set (w4 := snd (endConditionReached effect delta w3)) in *.
    set (ec := match endCondition (options (heap w3 effect)) with
               | Some _ => [CallEndCondition effect delta]
               | None => []
               end) in *.
    assert (Hec : ec = [] \/ ec = [CallEndCondition effect delta])
      by (unfold ec; destruct (endCondition _); auto).
    assert (H4 : calls w4 = calls w ++ [CallUpdate effect delta] ++ ec /\
                 has_onEnd (heap w4 effect) = has_onEnd (heap w effect)).
    { rewrite Hw4. unfold w3; simpl. rewrite store_set_same.
      split; [rewrite Hl, Hl1, <- app_assoc; reflexivity | exact Ho2]. }
    clearbody w3 w4 ec. destruct H4 as (Hl4 & Ho4).
    exists ec. split; [exact Hec |].
    destruct (_ || _); simpl.
    + destruct (CameraEffect_onEnd_frame effect w4) as (_ & _ & _ & Hl').
      rewrite Hl', Hl4, Ho4, <- !app_assoc. reflexivity.
    + rewrite Hl4, app_nil_r. reflexivity.
Qed.

Lemma update_callback_has_onEnd delta effect w r :
  has_onEnd (heap (snd (update_callback delta effect w)) r)
  = has_onEnd (heap w r).
Proof.
  destruct (update_callback_heap delta effect w r) as (_ & _ & _ & Hc & _).
  unfold has_onEnd. now rewrite Hc.
Qed.

Lemma Array_filter_calls delta l : forall w,
  exists new,
    calls (snd (Array_filter (update_callback delta) l w)) = calls w ++ new /\
    forall r,
      updates_of r new = count_occ Nat.eq_dec l r /\
      (onEnds_of r new
       + (if has_onEnd (heap w r)
          then count_occ Nat.eq_dec
                 (fst (Array_filter (update_callback delta) l w)) r
          else 0)
       = if has_onEnd (heap w r) then count_occ Nat.eq_dec l r else 0)%nat.
Proof.
  induction l as [|e l IH]; intros w; simpl.
  - exists []. rewrite app_nil_r. split; [reflexivity |].
    intros r. split; [reflexivity |]. destruct (has_onEnd _); reflexivity.
  - unfold bind, ret.
    destruct (update_callback_calls delta e w) as (ec & Hec & Hl).
    pose proof (update_callback_has_onEnd delta e w) as Hon.
    destruct (update_callback delta e w) as [keep w']; simpl in *.
    destruct (IH w') as (new & Hnew & Hcount).
    destruct (Array_filter (update_callback delta) l w') as [rest w''].
    simpl in *.
    eexists. split.
    { rewrite Hnew, Hl, <- !app_assoc. reflexivity. }
    intros r. destruct (Hcount r) as (Hu & Ho). rewrite Hon in Ho.
    set (oe := if negb keep && has_onEnd (heap w e)
               then [CallOnEnd e] else []) in *.
    change ((CallUpdate e delta :: ec ++ oe) ++ new)
      with (([CallUpdate e delta] ++ ec ++ oe) ++ new).
    rewrite !updates_of_app, !onEnds_of_app, Hu.
    assert (Hec_u : updates_of r ec = 0%nat)
      by (destruct Hec as [-> | ->]; reflexivity).
    assert (Hec_o : onEnds_of r ec = 0%nat)
      by (destruct Hec as [-> | ->]; reflexivity).
    assert (Hoe_u : updates_of r oe = 0%nat)
      by (unfold oe; destruct (_ && _); reflexivity).
    assert (Hup_u : updates_of r [CallUpdate e delta]
                    = if Nat.eqb e r then 1%nat else 0%nat)
      by (unfold updates_of; simpl; destruct (Nat.eqb e r); reflexivity).
    assert (Hup_o : onEnds_of r [CallUpdate e delta] = 0%nat)
      by reflexivity.
    assert (Hoe_o : onEnds_of r oe
                    = if negb keep && has_onEnd (heap w e) && Nat.eqb e r
                      then 1%nat else 0%nat).
    { unfold oe, onEnds_of. destruct (_ && _); simpl; [| reflexivity].
      destruct (Nat.eqb e r); reflexivity. }
    rewrite Hec_u, Hec_o, Hoe_u, Hup_u, Hup_o, Hoe_o. clear oe Hl Hoe_u Hoe_o.
    destruct (Nat.eq_dec e r) as [->|Hne].
    + rewrite Nat.eqb_refl, andb_true_r. split; [lia |].
      destruct (has_onEnd (heap w r)); rewrite ?andb_false_r, ?andb_true_r.
      * destruct keep; simpl.
        -- destruct (Nat.eq_dec r r); [lia | contradiction].
        -- lia.
      * lia.
    + assert (Hb : Nat.eqb e r = false) by (now apply Nat.eqb_neq).
      rewrite Hb, andb_false_r. split; [lia |].
      destruct (has_onEnd (heap w r)); [| lia].
      destruct keep; simpl.
      * destruct (Nat.eq_dec e r); [contradiction | lia].
      * lia.
Qed.

(** X4. In one tick every entry of the collection is updated once, the
    entries being dropped included: the number of [update] calls on an
    effect is the number of times it is listed (an effect added twice
    runs twice per frame). The number of [onEnd] calls on it is the
    number of its entries the tick dropped, if its class has an [onEnd],
    and none otherwise; a kept entry never has [onEnd] called. *)
Theorem Camera_update_calls
  (delta : number) (this : Camera) (w : World) (r : ref) :
  let after := Camera_update delta this w in
  exists new,
    calls (snd after) = calls w ++ new /\
    updates_of r new = count_occ Nat.eq_dec (effects this) r /\
    onEnds_of r new =
      if has_onEnd (heap w r)
      then (count_occ Nat.eq_dec (effects this) r
            - count_occ Nat.eq_dec (effects (fst after)) r)%nat
      else 0%nat.
Proof.
  cbv zeta. unfold Camera_update, bind, ret, effects.
  destruct (Array_filter_calls delta (_effects this) w) as (new & Hl & Hc).
  destruct (Array_filter (update_callback delta) (_effects this) w)
    as [l w'].
  simpl in *. exists new. split; [exact Hl |].
  destruct (Hc r) as (Hu & Ho). split; [exact Hu |].
  destruct (has_onEnd (heap w r)); lia.
Qed.

(** ** Effects without a positive duration *)

Lemma num_elapsed_reaches a b d :
  isFinite a = true -> isFinite b = true ->
  (a <=? b) = true -> (d <=? n0) = true -> (b - a >=? d) = true.
Proof.
  unfold num_ge, num_le, num_sub, num_add, num_neg, n0.
  destruct a as [p| | |], b as [q| | |], d as [r| | |];
    try discriminate; intros _ _ H1 H2; try reflexivity.
  apply Qle_bool_iff in H1. apply Qle_bool_iff in H2.
  apply Qle_bool_iff. lra.
Qed.

(** X5. An effect whose duration is 0 or less - what the constructor
    makes of a missing duration, as in an options object that only has
    an end condition - is dropped by the first tick that visits it,
    whatever its [update] and its end condition return, as soon as the
    clock does not run backwards during the visit. *)
Theorem nonpositive_duration_dropped_at_once
  (effect : ref) (delta : number) (w : World) :
  let e := heap w effect in
  let k := clock_reads w in
  (duration (options e) <=? n0) = true ->
  (startedTimeStamp e === n0) = true ->
  isFinite (clock w k) = true ->
  isFinite (clock w (S (S k))) = true ->
  (clock w k <=? clock w (S (S k))) = true ->
  fst (update_callback delta effect w) = false.
Proof.
  cbv zeta. intros Hd Hfresh Hf0 Hf2 Hmono.
  rewrite (update_callback_unfold delta effect w). cbv zeta.
  rewrite Hfresh.
  set (w1 := mkWorld _ _ _ _ _ _ _).
  destruct (CameraEffect_update_frame effect delta w1) as (Hh & Hc & Hr & _).
  set (w2 := snd (CameraEffect_update effect delta w1)) in *.
  destruct (strict_equal _ (JBool false)); [reflexivity |].
  rewrite Hh, Hc, Hr. unfold w1 at 1 2 3 4; simpl.
  rewrite store_set_same; simpl.
  rewrite (num_elapsed_reaches _ _ _ Hf0 Hf2 Hmono Hd). reflexivity.
Qed.

Lemma nonpositive_duration_dropped_at_once_witness :
  let e :=
    fst (ShakeEffect_constructor 0%nat
           (Some (mkOptionsArg None (Some (fun _ _ => JBool false))))
           n5 (scene_of stage)) in
  fst (update_callback n1 0%nat (world_of (scene_of stage) e clock_frames))
  = false.
Proof.
  intros e.
  apply (nonpositive_duration_dropped_at_once 0%nat n1
           (world_of (scene_of stage) e clock_frames));
    reflexivity.
Defined.

(** ** What an effect object keeps for life *)

Lemma Array_filter_fields delta l : forall w r,
  let e' := heap (snd (Array_filter (update_callback delta) l w)) r in
  container e' = container (heap w r) /\
  options e' = options (heap w r) /\
  class e' = class (heap w r).
Proof.
  induction l as [|e l IH]; intros w r; simpl; [auto |].
  unfold bind, ret.
  destruct (update_callback_heap delta e w r) as (_ & Hc & Ho & Hk & _).
  destruct (update_callback delta e w) as [keep w']; simpl in *.
  destruct (IH w' r) as (Hc' & Ho' & Hk').
  destruct (Array_filter (update_callback delta) l w') as [rest w''].
  simpl in *. repeat split; congruence.
Qed.

(** X6. Whatever frames run on whatever camera, an effect object keeps
    the container, the options (duration and end condition) and the
    class fields it was constructed with: the camera writes nothing but
    the two time stamps. *)
Theorem effect_parameters_immutable
  (deltas : list number) (this : Camera) (w : World) (r : ref) :
  let e' := heap (snd (Camera_ticks deltas this w)) r in
  container e' = container (heap w r) /\
  options e' = options (heap w r) /\
  class e' = class (heap w r).
Proof.
  cbv zeta. revert this w.
  induction deltas as [|d ds IH]; intros this w; simpl; [auto |].
  unfold bind.
  pose proof (Array_filter_fields d (_effects this) w r) as Hd.
  unfold Camera_update, bind, ret.
  destruct (Array_filter (update_callback d) (_effects this) w) as [l w'].
  simpl in Hd. destruct Hd as (Hc & Ho & Hk).
  destruct (IH (mkCamera l) w') as (Hc' & Ho' & Hk').
  repeat split; congruence.
Qed.



(** ** ShakeEffect: where the pivot goes *)

Lemma num_scaled_fraction r i :
  (n0 <=? r) = true -> (r <? n1) = true ->
  (n0 <? i) = true -> isFinite i = true ->
  (n0 <=? r * i) = true /\ (r * i <? i) = true.
Proof.
  unfold num_le, num_lt, num_mul, n0, n1.
  destruct r as [p| | |], i as [q| | |]; try discriminate.
  intros H1 H2 H3 _.
  apply Qle_bool_iff in H1. apply Qlt_bool_iff in H2.
  apply Qlt_bool_iff in H3.
  split; [apply Qle_bool_iff | apply Qlt_bool_iff]; nra.
Qed.

(** X8. One [update] of a shake takes two readings of [Math.random()],
    sets the pivot's x to the first times the intensity and its y to the
    second times the intensity, and never ends the effect. With readings
    in [0, 1) and a positive intensity both coordinates lie in
    [0, intensity): the shake is around the origin, wherever the pivot
    stood before. *)
Theorem ShakeEffect_update_bounds
  (this : CameraEffect) (intensity : number) (w : World) :
  let r1 := random w (random_reads w) in
  let r2 := random w (S (random_reads w)) in
  let res := ShakeEffect_update this intensity w in
  let p := pivot (containers (scene (snd res)) (container this)) in
  (n0 <=? r1) = true -> (r1 <? n1) = true ->
  (n0 <=? r2) = true -> (r2 <? n1) = true ->
  (n0 <? intensity) = true -> isFinite intensity = true ->
  fst res = JUndefined /\
  random_reads (snd res) = S (S (random_reads w)) /\
  x p = r1 * intensity /\ y p = r2 * intensity /\
  (n0 <=? x p) = true /\ (x p <? intensity) = true /\
  (n0 <=? y p) = true /\ (y p <? intensity) = true.
Proof.
  cbv zeta. intros A1 B1 A2 B2 Hi Hf.
  unfold ShakeEffect_update. run.
  unfold on_container; simpl. rewrite !store_set_same; simpl.
  destruct (num_scaled_fraction _ _ A1 B1 Hi Hf).
  destruct (num_scaled_fraction _ _ A2 B2 Hi Hf).
  repeat split; assumption.
Qed.

Lemma ShakeEffect_update_bounds_witness :
  let w := world_of (scene_of moved_stage) shake_moved clock_frames in
  let p :=
    pivot (containers (scene (snd (ShakeEffect_update shake_moved n5 w)))
                      0%nat) in
  (x p <? n5) = true /\ (y p <? n5) = true.
Proof.
  intros w p.
  destruct (ShakeEffect_update_bounds shake_moved n5 w)
    as (_ & _ & _ & _ & _ & Hx & _ & Hy); try reflexivity.
  split; [exact Hx | exact Hy].
Defined.

(** ** The footprint of the stock effects on the scene *)

Lemma footprint_refl cls c s : footprint cls c s s.
Proof.
  unfold footprint. repeat split; auto.
  destruct cls; repeat split; auto.
Qed.

Ltac footprint_step :=
  unfold footprint, on_container, on_sprite; simpl;
  rewrite ?store_set_same; simpl;
  repeat split; auto;
  try (intros; rewrite ?store_set_other by assumption; reflexivity).

Lemma CameraEffect_update_footprint effect delta w :
  stock (heap w effect) = true ->
  footprint (class (heap w effect)) (container (heap w effect))
    (scene w) (scene (snd (CameraEffect_update effect delta w))).
Proof.
  unfold stock, CameraEffect_update. run.
  destruct (class (heap w effect)) eqn:C; simpl; intros Hs;
    try discriminate.
  - unfold ShakeEffect_update; run. footprint_step.
  - unfold PanEffect_update; run.
    match goal with |- context [if ?b then _ else _] => destruct b end;
      footprint_step.
  - unfold ZoomEffect_update; run.
    match goal with |- context [if ?b then _ else _] => destruct b end;
      footprint_step.
  - unfold RotateEffect_update; run.
    match goal with |- context [if ?b then _ else _] => destruct b end;
      footprint_step.
  - unfold FadeEffect_update; run.
    match goal with |- context [if ?b then _ else _] => destruct b end;
      footprint_step;
      intros; unfold store_set;
      try match goal with
          | |- context [Nat.eqb ?a ?b] =>
              destruct (Nat.eqb_spec a b) as [->|]
          end;
      try contradiction; reflexivity.
Qed.

Lemma CameraEffect_onEnd_footprint effect w :
  stock (heap w effect) = true ->
  footprint (class (heap w effect)) (container (heap w effect))
    (scene w) (scene (snd (CameraEffect_onEnd effect w))).
Proof.
  unfold stock, CameraEffect_onEnd. run.
  destruct (class (heap w effect)) eqn:C; simpl; intros Hs;
    try discriminate; try (rewrite <- C; apply footprint_refl).
  unfold ShakeEffect_onEnd; run. footprint_step.
Qed.

(** X9. The [update] of a stock effect, and its [onEnd], assign of the
    scene only what belongs to the effect: a shake or a pan the pivot of
    its container, a zoom the scale, a rotation the angle, a fade the
    opacity of its overlay sprite. The pivot, scale and angle of every
    other container, the other two of these on its own container, the
    opacity of every other sprite, every tint and every children list
    are as before. *)
Theorem stock_effect_footprint
  (effect : ref) (delta : number) (w : World) :
  stock (heap w effect) = true ->
  footprint (class (heap w effect)) (container (heap w effect))
    (scene w) (scene (snd (CameraEffect_update effect delta w))) /\
  footprint (class (heap w effect)) (container (heap w effect))
    (scene w) (scene (snd (CameraEffect_onEnd effect w))).
Proof.
  intros Hs. split.
  - now apply CameraEffect_update_footprint.
  - now apply CameraEffect_onEnd_footprint.
Qed.

Lemma stock_effect_footprint_witness :
  let w := world_of (snd rotate_back) (fst rotate_back) clock_frames in
  let s' := scene (snd (CameraEffect_update 0%nat n1 w)) in
  pivot (containers s' 0%nat) = pivot (containers (snd rotate_back) 0%nat) /\
  scale (containers s' 0%nat) = scale (containers (snd rotate_back) 0%nat) /\
  pivot (containers s' 1%nat) = pivot (containers (snd rotate_back) 1%nat) /\
  angle (containers s' 0%nat) <> angle (containers (snd rotate_back) 0%nat).
Proof.
  intros w s'.
  destruct (stock_effect_footprint 0%nat n1 w eq_refl)
    as ((Ho & _ & _ & Hp & Hs & _) & _).
  split; [exact Hp |]. split; [exact Hs |].
  split; [apply Ho; discriminate |].
  vm_compute. discriminate.
Defined.

(** ** PanEffect: where it does interpolate *)

Lemma num_pan_lerp (px tx q : Q) :
  Qeq_bool px 0 = true -> (0 < tx)%Q ->
  (Fin tx >? Fin px) = true /\
  (Math_abs (Fin tx - Fin px) * Fin q === lerp (Fin px) (Fin tx) (Fin q))
  = true.
Proof.
  intros Hp Ht. apply Qeq_bool_iff in Hp.
  unfold lerp, num_gt, num_lt, num_eq, num_mul, num_sub, num_add, num_neg,
    Math_abs.
  split.
  - apply Qlt_bool_iff. lra.
  - apply Qeq_bool_iff. rewrite Qabs_pos by lra. rewrite Hp. ring.
Qed.

(** X10. For a container whose pivot is at the origin when the pan is
    constructed and a target with positive coordinates (the case the
    test suite runs), each [update] does set the pivot to the linear
    interpolation from the initial pivot to the target at the elapsed
    fraction of the duration. *)
Theorem PanEffect_from_origin_interpolates
  (c : ref) (arg : option OptionsArg) (tx ty : Q) (s : Scene)
  (started lastRan : number) (w : World) (q : Q) :
  let location := mkVector2 (Fin tx) (Fin ty) in
  let built := PanEffect_constructor c arg location s in
  let this := stamped started lastRan (fst built) in
  let p0 := pivot (containers s c) in
  let difference :=
    mkVector2 (Math_abs (Fin tx - x p0)) (Math_abs (Fin ty - y p0)) in
  let r := PanEffect_update this location difference true true w in
  let p := pivot (containers (scene (snd r)) c) in
  (x p0 === n0) = true -> (y p0 === n0) = true ->
  (0 < tx)%Q -> (0 < ty)%Q ->
  (lastRan - started) / duration (options this) = Fin q ->
  class (fst built) = PanEffect location difference true true /\
  (x p === lerp (x p0) (Fin tx) (Fin q)) = true /\
  (y p === lerp (y p0) (Fin ty) (Fin q)) = true.
Proof.
  cbv zeta. intros Hx Hy Htx Hty Hq.
  destruct (x (pivot (containers s c))) as [px| | |] eqn:Ex;
    try discriminate.
  destruct (y (pivot (containers s c))) as [py| | |] eqn:Ey;
    try discriminate.
  destruct (num_pan_lerp px tx q Hx Htx) as (Gx & Lx).
  destruct (num_pan_lerp py ty q Hy Hty) as (Gy & Ly).
  split.
  { unfold PanEffect_constructor; simpl. rewrite Ex, Ey, Gx, Gy.
    reflexivity. }
  destruct (PanEffect_update_result
              (stamped started lastRan
                 (fst (PanEffect_constructor c arg
                         (mkVector2 (Fin tx) (Fin ty)) s)))
              (mkVector2 (Fin tx) (Fin ty))
              (mkVector2 (Math_abs (Fin tx - Fin px))
                         (Math_abs (Fin ty - Fin py)))
              true true w) as (Rx & Ry & _).
  simpl in Rx, Ry, Hq. rewrite Hq in Rx, Ry.
  simpl. rewrite Rx, Ry. split; assumption.
Qed.

Lemma PanEffect_from_origin_interpolates_witness :
  let location := mkVector2 (Fin 50) (Fin 150) in
  let built := PanEffect_constructor 0%nat (ms 2000) location
                 (scene_of stage) in
  let this := stamped (Fin 16) (Fin 1016) (fst built) in
  let r :=
    PanEffect_update this location
      (mkVector2 (Math_abs (Fin 50 - n0)) (Math_abs (Fin 150 - n0)))
      true true (world_of (scene_of stage) this clock_frames) in
  (x (pivot (containers (scene (snd r)) 0%nat))
   === lerp n0 (Fin 50) (Fin ((1016 + - 16) / 2000))) = true.
Proof.
  intros location built this r.
  apply (PanEffect_from_origin_interpolates 0%nat (ms 2000) 50 150
           (scene_of stage) (Fin 16) (Fin 1016)
           (world_of (scene_of stage) this clock_frames)
           ((1016 + - 16) / 2000)%Q);
    try reflexivity.
Defined.

(** ** ZoomEffect and RotateEffect: where the animation ends *)

Lemma ZoomEffect_update_scale
  (this : CameraEffect) (_zoomLevel : Vector2) (fn : EasingFn)
  (_initialZoomLevel : Vector2) (xg yg : bool) (w : World) :
  let p := fn ((lastRanTimeStamp this - startedTimeStamp this)
               / duration (options this)) in
  let r := ZoomEffect_update this _zoomLevel fn _initialZoomLevel xg yg w in
  let sc := scale (containers (scene (snd r)) (container this)) in
  x sc = (if xg then x _initialZoomLevel + (x _zoomLevel * p) / n2
          else x _initialZoomLevel - x _zoomLevel * p) /\
  y sc = (if yg then y _initialZoomLevel + (y _zoomLevel * p) / n2
          else y _initialZoomLevel - y _zoomLevel * p).
Proof.
  cbv zeta. unfold ZoomEffect_update. run.
  unfold on_container; simpl. rewrite !store_set_same; simpl.
  match goal with |- context [if ?b then _ else _] => destruct b end;
    simpl; rewrite !store_set_same; simpl; split; reflexivity.
Qed.

Lemma RotateEffect_update_angle
  (this : CameraEffect) (_angle _initialAngle : number) (fn : EasingFn)
  (w : World) :
  let p := fn ((lastRanTimeStamp this - startedTimeStamp this)
               / duration (options this)) in
  let r := RotateEffect_update this _angle _initialAngle fn w in
  angle (containers (scene (snd r)) (container this))
  = _initialAngle + _angle * p.
Proof.
  cbv zeta. unfold RotateEffect_update. run.
  unfold on_container; simpl. rewrite !store_set_same; simpl.
  match goal with |- context [if ?b then _ else _] => destruct b end;
    simpl; rewrite !store_set_same; reflexivity.
Qed.

Lemma num_zoom_end (i z f : Q) :
  (f == 1)%Q ->
  ((if Fin z >? Fin i then Fin i + (Fin z * Fin f) / n2
    else Fin i - Fin z * Fin f) === Fin z) = true
  <-> if Fin z >? Fin i then (z == 2 * i)%Q else (i == 2 * z)%Q.
Proof.
  intros Hf. destruct (Fin z >? Fin i).
  - unfold num_eq, num_add, num_div, num_mul, n2.
    change (Qeq_bool 2 0) with false. cbv iota.
    rewrite Qeq_bool_iff. rewrite Hf.
    assert (E : (z * 1 / 2 == z * (1 # 2))%Q) by field.
    rewrite E. split; intros H; lra.
  - unfold num_eq, num_sub, num_add, num_neg, num_mul.
    rewrite Qeq_bool_iff. rewrite Hf. split; intros H; lra.
Qed.

(** X11. When the eased fraction is 1 - the end of the duration - the
    scale a zoom sets on an axis equals the target level only if the
    target is twice the initial level (zooming in) or the initial level
    twice the target (zooming out): from scale 1 the level 2 is reached,
    as is the level 0.5, every other level is missed. *)
Theorem ZoomEffect_end_of_duration
  (this : CameraEffect) (zx zy ix iy f : Q) (fn : EasingFn) (w : World) :
  let lvl := mkVector2 (Fin zx) (Fin zy) in
  let init := mkVector2 (Fin ix) (Fin iy) in
  let r := ZoomEffect_update this lvl fn init
             (Fin zx >? Fin ix) (Fin zy >? Fin iy) w in
  let sc := scale (containers (scene (snd r)) (container this)) in
  fn ((lastRanTimeStamp this - startedTimeStamp this)
      / duration (options this)) = Fin f ->
  (f == 1)%Q ->
  ((x sc === Fin zx) = true
   <-> if Fin zx >? Fin ix then (zx == 2 * ix)%Q else (ix == 2 * zx)%Q) /\
  ((y sc === Fin zy) = true
   <-> if Fin zy >? Fin iy then (zy == 2 * iy)%Q else (iy == 2 * zy)%Q).
Proof.
  cbv zeta. intros Hp Hf.
  destruct (ZoomEffect_update_scale this (mkVector2 (Fin zx) (Fin zy)) fn
              (mkVector2 (Fin ix) (Fin iy))
              (Fin zx >? Fin ix) (Fin zy >? Fin iy) w) as (Hx & Hy).
  rewrite Hx, Hy, Hp. simpl.
  split; apply num_zoom_end; assumption.
Qed.

Lemma ZoomEffect_end_of_duration_witness :
  let e := fst (ZoomEffect_constructor 0%nat (ms 2000)
                  (mkVector2 (Fin 3) (Fin 2)) None (scene_of stage)) in
  let this := stamped (Fin 16) (Fin 2016) e in
  let r := ZoomEffect_update this (mkVector2 (Fin 3) (Fin 2)) linear
             (mkVector2 (Fin 1) (Fin 1)) (Fin 3 >? Fin 1) (Fin 2 >? Fin 1)
             (world_of (scene_of stage) this clock_frames) in
  (x (scale (containers (scene (snd r)) 0%nat)) === Fin 3) <> true /\
  (y (scale (containers (scene (snd r)) 0%nat)) === Fin 2) = true.
Proof.
  intros e this r.
  destruct (ZoomEffect_end_of_duration this 3 2 1 1
              ((2016 + - 16) / 2000) linear
              (world_of (scene_of stage) this clock_frames))
    as (Hx & Hy); [reflexivity | reflexivity |].
  split.
  - intros H. apply Hx in H. vm_compute in H. discriminate.
  - apply Hy. reflexivity.
Defined.

Lemma num_rotate_end (i a f : Q) :
  (f == 1)%Q ->
  (Fin i + Fin a * Fin f === Fin a) = true <-> (i == 0)%Q.
Proof.
  intros Hf. unfold num_eq, num_add, num_mul.
  rewrite Qeq_bool_iff. rewrite Hf. split; intros H; lra.
Qed.

(** X12. A rotation turns the container by the angle given, not to it:
    when the eased fraction is 1 the angle set is the initial angle plus
    that angle, which is the angle given only for a container that stood
    at 0 degrees. *)
Theorem RotateEffect_end_of_duration
  (this : CameraEffect) (a i f : Q) (fn : EasingFn) (w : World) :
  let r := RotateEffect_update this (Fin a) (Fin i) fn w in
  let after := angle (containers (scene (snd r)) (container this)) in
  fn ((lastRanTimeStamp this - startedTimeStamp this)
      / duration (options this)) = Fin f ->
  (f == 1)%Q ->
  (after === Fin i + Fin a) = true /\
  ((after === Fin a) = true <-> (i == 0)%Q).
Proof.
  cbv zeta. intros Hp Hf.
  rewrite (RotateEffect_update_angle this (Fin a) (Fin i) fn w), Hp.
  split; [| now apply num_rotate_end].
  unfold num_eq, num_add, num_mul. apply Qeq_bool_iff. rewrite Hf. ring.
Qed.

Lemma RotateEffect_end_of_duration_witness :
  let this := stamped (Fin 16) (Fin 2016) (fst rotate_back) in
  let r := RotateEffect_update this (Fin 45) (Fin 90) linear
             (world_of (snd rotate_back) this clock_frames) in
  (angle (containers (scene (snd r)) 0%nat) === Fin 90 + Fin 45) = true.
Proof.
  intros this r.
  apply (RotateEffect_end_of_duration this 45 90
           ((2016 + - 16) / 2000) linear
           (world_of (snd rotate_back) this clock_frames));
    reflexivity.
Defined.

(** ** An infinite duration *)

Lemma num_elapsed_over_Infinity (l s0 : Q) :
  (Fin l - Fin s0) / Infinity = Fin 0.
Proof. reflexivity. Qed.

Lemma num_frozen (i z f0 : Q) :
  (f0 == 0)%Q ->
  (Fin i + Fin z * Fin f0 === Fin i) = true /\
  (Fin i + (Fin z * Fin f0) / n2 === Fin i) = true /\
  (Fin i - Fin z * Fin f0 === Fin i) = true /\
  (n1 * Fin f0 === n0) = true /\
  (Fin i - n1 * Fin f0 === Fin i) = true.
Proof.
  intros Hf.
  unfold num_eq, num_sub, num_add, num_neg, num_div, num_mul, n0, n1, n2.
  change (Qeq_bool 2 0) with false. cbv iota.
  assert (E : (z * f0 / 2 == z * f0 * (1 # 2))%Q) by field.
  repeat split; apply Qeq_bool_iff; rewrite ?E, Hf; ring.
Qed.

(** X13. With the duration [Infinity] - the documented way to let an
    effect run until its end condition - the elapsed fraction is 0 in
    every update, so with an easing that maps 0 to 0 a rotation leaves
    the angle at the initial angle, a zoom leaves the scale at the
    initial level and a fade leaves the opacity at its initial value:
    these effects then do not animate. *)
Theorem infinite_duration_freezes
  (this : CameraEffect) (fn : EasingFn) (l s0 f0 : Q) (w : World) :
  duration (options this) = Infinity ->
  lastRanTimeStamp this = Fin l ->
  startedTimeStamp this = Fin s0 ->
  fn (Fin 0) = Fin f0 -> (f0 == 0)%Q ->
  (forall a i,
     (angle (containers
               (scene (snd (RotateEffect_update this (Fin a) (Fin i) fn w)))
               (container this)) === Fin i) = true) /\
  (forall zx zy ix iy xg yg,
     let sc :=
       scale (containers
                (scene (snd (ZoomEffect_update this
                               (mkVector2 (Fin zx) (Fin zy)) fn
                               (mkVector2 (Fin ix) (Fin iy)) xg yg w)))
                (container this)) in
     (x sc === Fin ix) = true /\ (y sc === Fin iy) = true) /\
  (forall filter opacity io,
     (alpha (sprites
               (scene (snd (FadeEffect_update this filter opacity fn true
                              n0 w))) filter) === n0) = true /\
     (alpha (sprites
               (scene (snd (FadeEffect_update this filter opacity fn false
                              (Fin io) w))) filter) === Fin io) = true).
Proof.
  intros Hd Hl Hs Hfn Hf.
  assert (Hp : fn ((lastRanTimeStamp this - startedTimeStamp this)
                   / duration (options this)) = Fin f0).
  { rewrite Hd, Hl, Hs, num_elapsed_over_Infinity. exact Hfn. }
  split; [| split].
  - intros a i.
    rewrite (RotateEffect_update_angle this (Fin a) (Fin i) fn w), Hp.
    apply (num_frozen i a f0 Hf).
  - intros zx zy ix iy xg yg.
    destruct (ZoomEffect_update_scale this (mkVector2 (Fin zx) (Fin zy)) fn
                (mkVector2 (Fin ix) (Fin iy)) xg yg w) as (Hx & Hy).
    cbv zeta. rewrite Hx, Hy, Hp. simpl.
    split; [destruct xg | destruct yg];
      first [apply (num_frozen ix zx f0 Hf) | apply (num_frozen iy zy f0 Hf)].
  - intros filter opacity io.
    destruct (FadeEffect_update_result this filter opacity fn true n0 w)
      as (Ha & _).
    destruct (FadeEffect_update_result this filter opacity fn false
                (Fin io) w) as (Hb & _).
    rewrite Ha, Hb, Hp. simpl.
    split; apply (num_frozen io 0 f0 Hf).
Qed.

Lemma infinite_duration_freezes_witness :
  let e :=
    fst (RotateEffect_constructor 0%nat
           (Some (mkOptionsArg (Some Infinity) None)) (Fin 45) None
           (scene_of stage)) in
  let this := stamped (Fin 16) (Fin 5016) e in
  (angle (containers
            (scene (snd (RotateEffect_update this (Fin 45) (Fin 0) linear
                           (world_of (scene_of stage) this clock_frames))))
            0%nat) === Fin 0) = true.
Proof.
  intros e this.
  apply (infinite_duration_freezes this linear 5016 16 0
           (world_of (scene_of stage) this clock_frames));
    reflexivity.
Defined.

(** X14. A pan with the duration [Infinity] does not pan: on an axis
    whose target is greater than the pivot it sets the pivot to 0 in
    every update, on any other axis to [NaN]; with such an axis the
    [update] never returns [false]. *)
Theorem PanEffect_infinite_duration
  (this : CameraEffect) (co : Vector2) (dx dy l s0 : Q) (xg yg : bool)
  (w : World) :
  duration (options this) = Infinity ->
  lastRanTimeStamp this = Fin l ->
  startedTimeStamp this = Fin s0 ->
  let r := PanEffect_update this co (mkVector2 (Fin dx) (Fin dy)) xg yg w in
  let p := pivot (containers (scene (snd r)) (container this)) in
  (if xg then (x p === n0) = true else x p = NaN) /\
  (if yg then (y p === n0) = true else y p = NaN) /\
  (xg && yg = false -> fst r = JUndefined).
Proof.
  intros Hd Hl Hs. cbv zeta.
  destruct (PanEffect_update_result this co (mkVector2 (Fin dx) (Fin dy))
              xg yg w) as (Hx & Hy & Hr).
  rewrite Hd, Hl, Hs in Hx, Hy. simpl in Hx, Hy.
  rewrite Hr, Hx, Hy. clear Hx Hy Hr.
  assert (Z : forall d, (Fin d * ((Fin l - Fin s0) / Infinity) === n0) = true).
  { intros d. rewrite num_elapsed_over_Infinity.
    unfold num_eq, num_mul, n0. apply Qeq_bool_iff. ring. }
  assert (N : forall d, Fin d * ((Infinity - Fin l) / Infinity) = NaN)
    by reflexivity.
  assert (G : forall v, (NaN >? v) = false)
    by (intros v; unfold num_gt, num_lt; destruct v; reflexivity).
  split; [destruct xg; auto |]. split; [destruct yg; auto |].
  intros H. destruct xg, yg; try discriminate;
    rewrite ?N, ?G, ?andb_false_r; reflexivity.
Qed.

Lemma PanEffect_infinite_duration_witness :
  let e :=
    fst (PanEffect_constructor 0%nat
           (Some (mkOptionsArg (Some Infinity) None))
           (mkVector2 (Fin 200) (Fin 50)) (scene_of moved_stage)) in
  let this := stamped (Fin 16) (Fin 5016) e in
  let r := PanEffect_update this (mkVector2 (Fin 200) (Fin 50))
             (mkVector2 (Fin 100) (Fin 50)) true false
             (world_of (scene_of moved_stage) this clock_frames) in
  (x (pivot (containers (scene (snd r)) 0%nat)) === n0) = true /\
  y (pivot (containers (scene (snd r)) 0%nat)) = NaN.
Proof.
  intros e this r.
  destruct (PanEffect_infinite_duration this (mkVector2 (Fin 200) (Fin 50))
              100 50 5016 16 true false
              (world_of (scene_of moved_stage) this clock_frames))
    as (Hx & Hy & _); try reflexivity.
  split; [exact Hx | exact Hy].
Defined.

(** ** The first tick of an effect *)

Lemma CameraEffect_onEnd_no_hook effect w :
  has_onEnd (heap w effect) = false ->
  scene (snd (CameraEffect_onEnd effect w)) = scene w.
Proof.
  unfold has_onEnd, CameraEffect_onEnd. run.
  destruct (class (heap w effect)); try discriminate; try reflexivity.
  destruct custom_onEnd; [discriminate | reflexivity].
Qed.

(** an effect without [onEnd] leaves the scene as its [update] left it *)
Lemma update_callback_scene_no_hook delta effect w :
  has_onEnd (heap w effect) = false ->
  scene (snd (update_callback delta effect w))
  = scene (snd (CameraEffect_update effect delta
                  (snd (stamp_first_run effect w)))).
Proof.
  intros Hn. rewrite (update_callback_unfold delta effect w). cbv zeta.
  rewrite (stamp_first_run_world effect w). cbv zeta.
  match goal with
  | |- context [CameraEffect_update effect delta ?W] => set (w1 := W)
  end.
  assert (H1 : has_onEnd (heap w1 effect) = false).
  { unfold w1. destruct (_ === _); simpl; rewrite ?store_set_same; auto. }
  destruct (CameraEffect_update_frame effect delta w1) as (Hh & _).
  set (w2 := snd (CameraEffect_update effect delta w1)) in *.
  assert (H2 : has_onEnd (heap w2 effect) = false) by (now rewrite Hh).
  clearbody w1 w2.
  destruct (strict_equal _ (JBool false)); simpl.
  - now apply CameraEffect_onEnd_no_hook.
  - set (w3 := mkWorld _ _ _ _ _ _ _).
    destruct (endConditionReached_frame effect delta w3) as (Hw4 & _).
    set (w4 := snd (endConditionReached effect delta w3)) in *.
    assert (H4 : scene w4 = scene w2 /\ has_onEnd (heap w4 effect) = false).
    { rewrite Hw4. unfold w3; simpl. rewrite store_set_same. auto. }
    clearbody w3 w4. destruct H4 as (Hsc & Hn4).
    destruct (_ || _); simpl; [| exact Hsc].
    rewrite (CameraEffect_onEnd_no_hook effect w4 Hn4). exact Hsc.
Qed.

Lemma num_first_fraction (c d : Q) :
  (0 < c)%Q -> (0 < d)%Q ->
  (n1 * linear ((n0 - Fin c) / Fin d) <? n0) = true.
Proof.
  intros Hc Hd.
  unfold linear, num_lt, num_mul, num_div, num_sub, num_add, num_neg, n0, n1.
  destruct (Qeq_bool d 0) eqn:E.
  - apply Qeq_bool_iff in E. lra.
  - apply Qlt_bool_iff.
    assert (H : (0 < c / d)%Q).
    { unfold Qdiv. apply Qmult_lt_0_compat; [exact Hc |].
      now apply Qinv_lt_0_compat. }
    assert (E' : ((0 + - c) / d == - (c / d))%Q) by (field; lra).
    rewrite E'. lra.
Qed.

(** X15. On the first tick that visits a fresh effect, [update] runs
    after the start has been stamped and before [lastRanTimeStamp] has:
    the elapsed fraction it computes is minus the clock reading over the
    duration. A linear fade so leaves the overlay, after its first tick,
    with a negative opacity, whenever the clock reading and the duration
    are positive. *)
Theorem FadeEffect_first_tick_opacity
  (effect : ref) (delta : number) (w : World)
  (f : ref) (col op io : number) (c d : Q) :
  let e := heap w effect in
  class e = FadeEffect f col op linear true io ->
  startedTimeStamp e = n0 -> lastRanTimeStamp e = n0 ->
  duration (options e) = Fin d -> (0 < d)%Q ->
  clock w (clock_reads w) = Fin c -> (0 < c)%Q ->
  let w' := snd (update_callback delta effect w) in
  alpha (sprites (scene w') f) = n1 * linear ((n0 - Fin c) / Fin d) /\
  (alpha (sprites (scene w') f) <? n0) = true.
Proof.
  cbv zeta. intros C Hs Hl Hd Hdpos Hc Hcpos.
  assert (Hn : has_onEnd (heap w effect) = false)
    by (unfold has_onEnd; now rewrite C).
  rewrite (update_callback_scene_no_hook delta effect w Hn).
  rewrite (stamp_first_run_world effect w). cbv zeta.
  rewrite Hs. change (n0 === n0) with true. cbv iota.
  unfold CameraEffect_update. run. rewrite store_set_same; simpl.
  rewrite C, Hc, Hl.
  match goal with
  | |- context [FadeEffect_update ?T f op linear true io ?W] =>
      destruct (FadeEffect_update_result T f op linear true io W) as (Ha & _)
  end.
  simpl in Ha. rewrite Hd in Ha. rewrite Ha.
  split; [reflexivity | now apply num_first_fraction].
Qed.

Lemma FadeEffect_first_tick_opacity_witness :
  let built := fade_black None in
  let w := world_of (snd built) (fst built) (clock_every 5000) in
  (alpha (sprites (scene (snd (update_callback n1 0%nat w))) 0%nat) <? n0)
  = true.
Proof.
  intros built w.
  apply (FadeEffect_first_tick_opacity 0%nat n1 w 0%nat (Fin 0) n1 n0
           (5000 * inject_Z (Z.of_nat (frame 0))) 2000);
    reflexivity.
Defined.

(** ** RotateEffect: the pivot moved by the constructor *)

(** X16. Constructing a rotation on a container whose pivot is at the
    origin moves the pivot to the middle of the container, (width / 2,
    height / 2), and changes nothing else of the scene; the effect
    records the old pivot and the container's angle. A second rotation
    constructed on that container finds the pivot off the origin (for a
    container of non-zero size) and leaves the scene as it is, recording
    the middle as its initial pivot. *)
Theorem RotateEffect_constructor_recenters_once
  (c : ref) (arg arg' : option OptionsArg) (a a' : number)
  (fn fn' : option EasingFn) (s : Scene) :
  let k := containers s c in
  let first := RotateEffect_constructor c arg a fn s in
  let second := RotateEffect_constructor c arg' a' fn' (snd first) in
  let centre := mkVector2 (width k / n2) (height k / n2) in
  (x (pivot k) === n0) = true -> (y (pivot k) === n0) = true ->
  (width k / n2 === n0) = false -> (height k / n2 === n0) = false ->
  containers (snd first) c
  = mkContainer centre (scale k) (angle k) (width k) (height k)
                (children k) /\
  (forall c', c' <> c -> containers (snd first) c' = containers s c') /\
  sprites (snd first) = sprites s /\
  class (fst first)
  = RotateEffect a (angle k) (mkVector2 (x (pivot k)) (y (pivot k)))
      (match fn with Some g => g | None => linear end) /\
  snd second = snd first /\
  class (fst second)
  = RotateEffect a' (angle k) centre
      (match fn' with Some g => g | None => linear end).
Proof.
  cbv zeta. intros Hx Hy Hw Hh.
  assert (E1 : snd (RotateEffect_constructor c arg a fn s)
    = on_container c (set_pivot_y (height (containers s c) / n2))
        (on_container c (set_pivot_x (width (containers s c) / n2)) s)).
  { unfold RotateEffect_constructor; simpl. rewrite Hx, Hy.
    unfold on_container at 3; simpl. rewrite store_set_same. reflexivity. }
  assert (K : containers (snd (RotateEffect_constructor c arg a fn s)) c
    = mkContainer
        (mkVector2 (width (containers s c) / n2)
                   (height (containers s c) / n2))
        (scale (containers s c)) (angle (containers s c))
        (width (containers s c)) (height (containers s c))
        (children (containers s c))).
  { rewrite E1. unfold on_container; simpl. rewrite !store_set_same.
    reflexivity. }
  split; [exact K |].
  split.
  { intros c' Hne. rewrite E1. unfold on_container; simpl.
    now rewrite !store_set_other. }
  split; [rewrite E1; reflexivity |].
  split; [reflexivity |].
  set (s1 := snd (RotateEffect_constructor c arg a fn s)) in *.
  clearbody s1.
  unfold RotateEffect_constructor; simpl.
  rewrite K; simpl. rewrite Hw, Hh. split; reflexivity.
Qed.

Lemma RotateEffect_constructor_recenters_once_witness :
  let first := RotateEffect_constructor 0%nat (ms 2000) (Fin 45) None
                 (scene_of stage) in
  pivot (containers (snd first) 0%nat)
  = mkVector2 (Fin 800 / n2) (Fin 600 / n2) /\
  snd (RotateEffect_constructor 0%nat (ms 1000) (Fin 90) None (snd first))
  = snd first.
Proof.
  intros first.
  destruct (RotateEffect_constructor_recenters_once 0%nat (ms 2000)
              (ms 1000) (Fin 45) (Fin 90) None None (scene_of stage))
    as (K & _ & _ & _ & S2 & _); try reflexivity.
  split; [unfold first; rewrite K; reflexivity | exact S2].
Defined.
